(** * speechtoipa: the transcription pipeline of [speechtoipa/pipeline.py]

    A shallow embedding of the language-code resolver, the phonemization
    adapter, the segment aggregation loop and the orchestrator, with the
    properties the specification states about them.

    Python strings are sequences of Unicode code points, so [str] is a list
    of code points.  The two external engines (faster-whisper and
    phonemizer) are the class [Engines], the filesystem and the float type
    the class [Platform], and the Unicode case mapping behind [str.lower]
    the class [Unicode]. *)

From Stdlib Require Import NArith ZArith Lia List Bool Ascii String.
From stdpp Require Import base option list gmap.
Import ListNotations.

Local Open Scope N_scope.

(** ** Python strings *)

Abbreviation str := (list N).

(** A literal: the code points of an ASCII string. *)
Definition py (s : string) : str :=
  List.map N_of_ascii (list_ascii_of_string s).

(** Truth value of a string: [bool(s)] is [len(s) != 0]. *)
Definition str_bool (s : str) : bool :=
  match s with
  | [] => false
  | _ :: _ => true
  end.

(** Truth value of an [Optional[str]]: [None] and [""] are falsy. *)
Definition opt_bool (o : option str) : bool :=
  match o with
  | None => false
  | Some s => str_bool s
  end.

(** [a or b] for an optional string [a] and a string [b]. *)
Definition str_or (a : option str) (b : str) : str :=
  match a with
  | Some s => if str_bool s then s else b
  | None => b
  end.

(** [str.isspace] on one code point, the test behind [str.strip()]: the ASCII
    white space and separators 9-13, 28-31, 32, and the Unicode white space
    U+0085, U+00A0, U+1680, U+2000-U+200A, U+2028, U+2029, U+202F, U+205F,
    U+3000. *)
Definition isspace (c : N) : bool :=
  ((9 <=? c) && (c <=? 13)) || ((28 <=? c) && (c <=? 32))
  || (c =? 133) || (c =? 160) || (c =? 5760)
  || ((8192 <=? c) && (c <=? 8202))
  || (c =? 8232) || (c =? 8233) || (c =? 8239) || (c =? 8287) || (c =? 12288).

Fixpoint str_lstrip (s : str) : str :=
  match s with
  | [] => []
  | c :: s' => if isspace c then str_lstrip s' else s
  end.

Definition str_rstrip (s : str) : str := rev (str_lstrip (rev s)).

(** [s.strip()] *)
Definition str_strip (s : str) : str := str_rstrip (str_lstrip s).

(** [s.replace(old, new)] for one-character [old] and [new]. *)
Definition str_replace (old new : N) (s : str) : str :=
  List.map (fun c => if c =? old then new else c) s.

(** [sep in s] for a one-character [sep]. *)
Definition str_contains (sep : N) (s : str) : bool :=
  existsb (N.eqb sep) s.

(** [s.split(sep, 1)] for a one-character [sep]: at most one split, at the
    first occurrence. *)
Fixpoint str_split1 (sep : N) (s : str) : list str :=
  match s with
  | [] => [[]]
  | c :: s' =>
      if c =? sep then [[]; s']
      else match str_split1 sep s' with
           | h :: t => (c :: h) :: t
           | [] => [[c]]
           end
  end.

(** [sep.join(parts)] *)
Fixpoint str_join (sep : str) (parts : list str) : str :=
  match parts with
  | [] => []
  | [p] => p
  | p :: ps => p ++ sep ++ str_join sep ps
  end.

(** [str.lower] on an ASCII code point. *)
Definition ascii_lower (c : N) : N :=
  if (65 <=? c) && (c <=? 90) then c + 32 else c.

Definition is_ascii (c : N) : bool := c <? 128.

(** [str.lower] follows the Unicode character database outside ASCII; the
    model fixes it on ASCII strings only. *)
Class Unicode := {
  str_lower : str -> str;
  str_lower_ascii :
    forall s, forallb is_ascii s = true -> str_lower s = List.map ascii_lower s
}.

(** ** The language table *)

Definition hyphen : N := 45.
Definition underscore : N := 95.

(** The items of the dictionary literal [_ESPEAK_LANG_MAP], in source order. *)
Definition _ESPEAK_LANG_MAP_items : list (str * str) :=
  List.map (fun kv => (py (fst kv), py (snd kv)))
    [ ("af", "af"); ("ar", "ar"); ("bn", "bn"); ("cs", "cs"); ("da", "da");
      ("de", "de"); ("el", "el"); ("en", "en-us"); ("en-us", "en-us");
      ("en-gb", "en-gb"); ("es", "es"); ("fi", "fi"); ("fr", "fr-fr");
      ("gu", "gu"); ("hi", "hi"); ("hu", "hu"); ("id", "id"); ("it", "it");
      ("ja", "ja"); ("ko", "ko"); ("mr", "mr"); ("nb", "nb"); ("nl", "nl");
      ("pl", "pl"); ("pt", "pt-br"); ("pt-br", "pt-br"); ("pt-pt", "pt");
      ("ro", "ro"); ("ru", "ru"); ("sv", "sv"); ("ta", "ta"); ("te", "te");
      ("th", "th"); ("tr", "tr"); ("uk", "uk"); ("ur", "ur"); ("vi", "vi");
      ("zh", "zh"); ("zh-cn", "zh"); ("zh-tw", "zh") ]%string.

Definition _ESPEAK_LANG_MAP : gmap str str :=
  list_to_map _ESPEAK_LANG_MAP_items.

(** ** The language-code resolver *)

Section Resolver.
Context `{Unicode}.

Definition _normalise_lang_code (code : option str) : option str :=
  match code with
  | None => None
  | Some code =>
      Some (str_replace underscore hyphen (str_strip (str_lower code)))
  end.

Definition _resolve_espeak_language (language_hint : option str) : str :=
  if negb (opt_bool language_hint) then py "en-us"
  else
    let normalised := _normalise_lang_code language_hint in
    if negb (opt_bool normalised) then py "en-us"
    else
      let normalised := default [] normalised in
      match _ESPEAK_LANG_MAP !! normalised with
      | Some code => code
      | None =>
          if str_contains hyphen normalised then
            let base := hd [] (str_split1 hyphen normalised) in
            match _ESPEAK_LANG_MAP !! base with
            | Some code => code
            | None => normalised
            end
          else normalised
      end.
End Resolver.

(** ** Exceptions and the call trace *)

(** The exception classes the pipeline distinguishes.  [except RuntimeError]
    also catches the subclasses of [RuntimeError]. *)
Inductive exc_type :=
| RuntimeError
| RuntimeError_subclass (name : str)
| FileNotFoundError
| Exception_other (name : str).

(** An exception object: its class, its message and its [__cause__]. *)
#[local] Set Warnings "-register-all".
Inductive exn :=
| Exception (ty : exc_type) (msg : str) (cause : option exn).

Definition exn_type (e : exn) : exc_type := let 'Exception ty _ _ := e in ty.
Definition exn_msg (e : exn) : str := let 'Exception _ msg _ := e in msg.
Definition exn_cause (e : exn) : option exn := let 'Exception _ _ c := e in c.

(** [isinstance(e, RuntimeError)] *)
Definition is_RuntimeError (e : exn) : bool :=
  match exn_type e with
  | RuntimeError | RuntimeError_subclass _ => true
  | _ => false
  end.

(** What a call does: it returns a value or raises. *)
Inductive outcome (A : Type) :=
| Return (a : A)
| Raise (e : exn).
Arguments Return {A} a.
Arguments Raise {A} e.

(** ** The Python runtime and the external engines *)

Class Platform := {
  float : Type;
  float_0_0 : float;                  (* the literal 0.0 *)
  Path : Type;
  Path_of_str : str -> Path;          (* Path(s) *)
  Path_str : Path -> str;             (* str(p) *)
  Path_exists : Path -> bool          (* p.exists() *)
}.

Section Records.
Context `{Platform}.

(** A segment as the recognizer yields it.  The two confidence attributes
    are read with [getattr(segment, name, None)]. *)
Record Segment := {
  raw_start : float;
  raw_end : float;
  raw_text : str;
  raw_avg_logprob : option float;
  raw_no_speech_prob : option float
}.

(** The run-level metadata of the recognizer. *)
Record TranscriptionInfo := {
  info_language : option str;
  info_language_probability : option float;
  info_duration : option float
}.

(** The lazy segment sequence: each pull yields a segment, ends the
    iteration, or raises. *)
Inductive seg_iter :=
| iter_stop
| iter_yield (segment : Segment) (rest : seg_iter)
| iter_raise (e : exn).

Record SegmentResult := {
  sr_start : float;
  sr_end : float;
  sr_text : str;
  sr_ipa : str;
  sr_avg_logprob : option float;
  sr_no_speech_prob : option float
}.

Record TranscriptionResult := {
  audio_path : Path;
  text : str;
  ipa : str;
  segments : list SegmentResult;
  language : str;
  language_confidence : option float;
  duration : option float;
  model_size : str;
  ipa_language : str
}.

(** The calls a spy on the collaborators records, with their arguments. *)
Inductive call :=
| Call_WhisperModel (model_size device compute_type : str)
| Call_transcribe (audio : str) (language : option str)
    (beam_size best_of : Z) (vad_filter : bool) (temperature : float)
| Call_phonemize (text language backend : str)
    (strip preserve_punctuation with_stress : bool) (punctuation_marks : str)
| Call_resolve (language_hint : option str).

(** A computation: the calls it made and its outcome. *)
Definition M (A : Type) : Type := list call * outcome A.

Definition ret {A} (a : A) : M A := ([], Return a).
Definition raise {A} (e : exn) : M A := ([], Raise e).
Definition tell (c : call) : M unit := ([c], Return tt).
Definition lift {A} (o : outcome A) : M A := ([], o).

Definition bind {A B} (m : M A) (k : A -> M B) : M B :=
  match m with
  | (t, Raise e) => (t, Raise e)
  | (t, Return a) => let (t', o) := k a in (t ++ t', o)
  end.
End Records.

Notation "'let*' x ':=' m 'in' k" := (bind m (fun x => k))
  (at level 10, x name, m at level 100, k at level 200, only parsing).
Notation "'let*' ' pat ':=' m 'in' k" :=
  (bind m (fun x => match x with pat => k end))
  (at level 10, pat pattern, m at level 100, k at level 200, only parsing).

Class Engines `{Platform} := {
  Model : Type;
  (* WhisperModel(model_size, device=..., compute_type=...) *)
  WhisperModel : str -> str -> str -> outcome Model;
  (* model.transcribe(audio, language=..., beam_size=..., best_of=...,
       vad_filter=..., temperature=...) *)
  Model_transcribe :
    Model -> str -> option str -> Z -> Z -> bool -> float ->
    outcome (seg_iter * TranscriptionInfo);
  (* phonemize(text, language=..., backend=..., strip=...,
       preserve_punctuation=..., with_stress=..., punctuation_marks=...) *)
  phonemize : str -> str -> str -> bool -> bool -> bool -> str -> outcome str
}.

(** ** The adapter, the loop and the orchestrator *)

(** [;:,.!?], the inverted marks, the dash, the ellipsis, the quotes and the
    brackets. *)
Definition _PUNCTUATION : str :=
  [59; 58; 44; 46; 33; 63; 161; 191; 8212; 8230; 34; 171; 187; 8220; 8221;
   40; 41; 91; 93; 123; 125].

Section Pipeline.
Context `{Unicode} `{Platform} `{!Engines}.

Definition _phonemize_text (text ipa_language : str) : M str :=
  if negb (str_bool (str_strip text)) then ret []
  else
    let* _ := tell (Call_phonemize text ipa_language (py "espeak")
                      true true true _PUNCTUATION) in
    match phonemize text ipa_language (py "espeak")
            true true true _PUNCTUATION with
    | Return s => ret s
    | Raise exc =>
        if is_RuntimeError exc then
          raise (Exception RuntimeError
                   (py "Failed to phonemize text. Ensure espeak-ng is installed and the language '"
                      ++ ipa_language ++ py "' is supported.")
                   (Some exc))
        else raise exc
    end.

(** The loop [for segment in segments_iter] of [transcribe_audio_to_ipa],
    with its two accumulators. *)
Fixpoint for_segment_in (segments_iter : seg_iter) (ipa_code : str)
    (segments : list SegmentResult) (full_text_parts : list str)
    : M (list SegmentResult * list str) :=
  match segments_iter with
  | iter_stop => ret (segments, full_text_parts)
  | iter_raise e => raise e
  | iter_yield segment rest =>
      let segment_text := str_strip (raw_text segment) in
      if negb (str_bool segment_text) then
        for_segment_in rest ipa_code segments full_text_parts
      else
        let full_text_parts := full_text_parts ++ [segment_text] in
        let* segment_ipa := _phonemize_text segment_text ipa_code in
        let segments :=
          segments ++
          [ {| sr_start := raw_start segment;
               sr_end := raw_end segment;
               sr_text := segment_text;
               sr_ipa := segment_ipa;
               sr_avg_logprob := raw_avg_logprob segment;
               sr_no_speech_prob := raw_no_speech_prob segment |} ] in
        for_segment_in rest ipa_code segments full_text_parts
  end.

(** [Path(audio_path)] for [audio_path : Path | str]. *)
Definition Path_ (audio_path : Path + str) : Path :=
  match audio_path with
  | inl p => p
  | inr s => Path_of_str s
  end.

Definition transcribe_audio_to_ipa (audio_path : Path + str)
    (model_size : str) (language ipa_language : option str) (device : str)
    (compute_type : option str) (vad_filter : bool)
    : M TranscriptionResult :=
  let resolved_audio_path := Path_ audio_path in
  if negb (Path_exists resolved_audio_path) then
    raise (Exception FileNotFoundError
             (py "Audio file not found: " ++ Path_str resolved_audio_path)
             None)
  else
    let compute_type :=
      match compute_type with
      | None =>
          if bool_decide (device = py "cpu") then py "int8" else py "auto"
      | Some c => c
      end in
    let* _ := tell (Call_WhisperModel model_size device compute_type) in
    let* model := lift (WhisperModel model_size device compute_type) in
    let* _ := tell (Call_transcribe (Path_str resolved_audio_path) language
                      1 1 vad_filter float_0_0) in
    let* '(segments_iter, info) :=
      lift (Model_transcribe model (Path_str resolved_audio_path) language
              1 1 vad_filter float_0_0) in
    let recognised_language :=
      str_or language (str_or (info_language info) []) in
    let* ipa_code :=
      (if opt_bool ipa_language then ret (default [] ipa_language)
       else
         let* _ := tell (Call_resolve (Some recognised_language)) in
         ret (_resolve_espeak_language (Some recognised_language))) in
    let* '(segments, full_text_parts) :=
      for_segment_in segments_iter ipa_code [] [] in
    let full_text := str_strip (str_join (py " ") full_text_parts) in
    let* full_ipa :=
      (if str_bool full_text then _phonemize_text full_text ipa_code
       else ret []) in
    ret {| audio_path := resolved_audio_path;
           text := full_text;
           ipa := full_ipa;
           segments := segments;
           language := recognised_language;
           language_confidence := info_language_probability info;
           duration := info_duration info;
           model_size := model_size;
           ipa_language := ipa_code |}.
End Pipeline.

(** ** The structured form of a result *)

Section Structured.
Context `{Platform}.

(** The values [asdict] produces: a dictionary keeps its items in insertion
    order. *)
Inductive pyvalue :=
| PyNone
| PyStr (s : str)
| PyFloat (x : float)
| PyPath (p : Path)
| PyList (l : list pyvalue)
| PyDict (items : list (str * pyvalue)).

Definition py_optional (o : option float) : pyvalue :=
  match o with
  | None => PyNone
  | Some x => PyFloat x
  end.

(** [payload[key] = value]: the value of an existing key is replaced where
    it stands, a new key goes to the end. *)
Fixpoint dict_setitem (key : str) (value : pyvalue)
    (items : list (str * pyvalue)) : list (str * pyvalue) :=
  match items with
  | [] => [(key, value)]
  | (k, v) :: rest =>
      if bool_decide (k = key) then (k, value) :: rest
      else (k, v) :: dict_setitem key value rest
  end.

(** [asdict] on a [SegmentResult], which is also [SegmentResult.to_dict]. *)
Definition SegmentResult_to_dict (self : SegmentResult) : pyvalue :=
  PyDict [ (py "start", PyFloat (sr_start self));
           (py "end", PyFloat (sr_end self));
           (py "text", PyStr (sr_text self));
           (py "ipa", PyStr (sr_ipa self));
           (py "avg_logprob", py_optional (sr_avg_logprob self));
           (py "no_speech_prob", py_optional (sr_no_speech_prob self)) ].

(** [asdict] on a [TranscriptionResult]: the fields in declaration order,
    the nested dataclasses converted, the path copied as it is. *)
Definition asdict (self : TranscriptionResult) : list (str * pyvalue) :=
  [ (py "audio_path", PyPath (audio_path self));
    (py "text", PyStr (text self));
    (py "ipa", PyStr (ipa self));
    (py "segments", PyList (List.map SegmentResult_to_dict (segments self)));
    (py "language", PyStr (language self));
    (py "language_confidence", py_optional (language_confidence self));
    (py "duration", py_optional (duration self));
    (py "model_size", PyStr (model_size self));
    (py "ipa_language", PyStr (ipa_language self)) ].

Definition TranscriptionResult_to_dict (self : TranscriptionResult) : pyvalue :=
  let payload := asdict self in
  let payload :=
    dict_setitem (py "audio_path") (PyStr (Path_str (audio_path self))) payload in
  let payload :=
    dict_setitem (py "segments")
      (PyList (List.map SegmentResult_to_dict (segments self))) payload in
  PyDict payload.
End Structured.

(** ** Concrete worlds for evaluating the model *)

(** [str.lower] restricted to the ASCII case mapping. *)
Definition ascii_unicode : Unicode :=
  {| str_lower := List.map ascii_lower;
     str_lower_ascii := fun s _ => eq_refl |}.

(** Floats as (numerator, denominator) of a decimal literal, paths as their
    strings, and a filesystem that holds the single file [audio.wav]. *)
Definition demo_platform : Platform :=
  {| float := Z * Z;
     float_0_0 := (0, 10)%Z;
     Path := str;
     Path_of_str := fun s => s;
     Path_str := fun p => p;
     Path_exists := fun p => bool_decide (p = py "audio.wav") |}.

(** Engines that always load, recognise [out] and phonemize with [g2p]. *)
Definition demo_engines
    (out : @seg_iter demo_platform * @TranscriptionInfo demo_platform)
    (g2p : str -> str -> outcome str) : @Engines demo_platform :=
  {| Model := unit;
     WhisperModel := fun _ _ _ => Return tt;
     Model_transcribe := fun _ _ _ _ _ _ _ => Return out;
     phonemize := fun text language _ _ _ _ _ => g2p text language |}.

Definition demo_segment (t0 t1 : Z * Z) (s : string) : @Segment demo_platform :=
  @Build_Segment demo_platform t0 t1 (py s) None None.

Definition demo_info : @TranscriptionInfo demo_platform :=
  @Build_TranscriptionInfo demo_platform
    (Some (py "en")) (Some (95, 100)%Z) (Some (20, 10)%Z).

(** The end-to-end scenario of the specification: "Hello" then an empty
    segment, detected language "en". *)
Definition demo_hello : @seg_iter demo_platform * @TranscriptionInfo demo_platform :=
  (iter_yield (demo_segment (0, 10) (12, 10) "Hello")
     (iter_yield (demo_segment (12, 10) (20, 10) "") iter_stop),
   demo_info)%Z.

(** Two spoken segments around a silent one. *)
Definition demo_hi_there : @seg_iter demo_platform * @TranscriptionInfo demo_platform :=
  (iter_yield (demo_segment (0, 10) (5, 10) " Hi")
     (iter_yield (demo_segment (5, 10) (8, 10) "  ")
        (iter_yield (demo_segment (8, 10) (20, 10) "there ") iter_stop)),
   demo_info)%Z.

(** A stand-in phonemizer: the text between slashes. *)
Definition slashes (text language : str) : outcome str :=
  Return (py "/" ++ text ++ py "/").

(** A stand-in phonemizer that shows the language it is called with. *)
Definition tagged (text language : str) : outcome str :=
  Return (language ++ py ":" ++ text).

(** A phonemizer whose backend is missing. *)
Definition no_espeak (text language : str) : outcome str :=
  Raise (Exception RuntimeError (py "espeak not installed on your system") None).

Definition demo_run (E : @Engines demo_platform) (path : string)
    (language ipa_language : option str) : @M demo_platform (@TranscriptionResult demo_platform) :=
  @transcribe_audio_to_ipa ascii_unicode demo_platform E
    (inr (py path)) (py "small") language ipa_language (py "cpu") None true.

(** The resolver as the specification's testable properties word it for a
    non-empty hint: normalise, look up, retry on the base subtag, else pass
    the normalised code through, with no case for a code that normalises to
    the empty string. *)
Definition resolve_without_empty_guard `{Unicode} (hint : str) : str :=
  let normalised := str_replace underscore hyphen (str_strip (str_lower hint)) in
  match _ESPEAK_LANG_MAP !! normalised with
  | Some code => code
  | None =>
      if str_contains hyphen normalised then
        match _ESPEAK_LANG_MAP !! hd [] (str_split1 hyphen normalised) with
        | Some code => code
        | None => normalised
        end
      else normalised
  end.

(** A code point that normalisation leaves alone. *)
Definition plain_char (c : N) : bool :=
  is_ascii c && (ascii_lower c =? c) && negb (isspace c)
  && negb (c =? underscore).

(** A non-empty tag that is already in normal form. *)
Definition plain_tag (s : str) : bool := str_bool s && forallb plain_char s.

(** ** Vocabulary for the statements about a run *)

Section Vocabulary.
Context `{Unicode} `{Platform} `{!Engines}.

(** The segments an iterator yields before it stops or raises. *)
Fixpoint yielded (it : seg_iter) : list Segment :=
  match it with
  | iter_yield segment rest => segment :: yielded rest
  | iter_stop | iter_raise _ => []
  end.

(** The trimmed text of a raw segment. *)
Definition trimmed (segment : Segment) : str := str_strip (raw_text segment).

(** A raw segment whose trimmed text is not empty. *)
Definition spoken (segment : Segment) : bool := str_bool (trimmed segment).

(** [sr] is the record the loop builds from [raw] with the code [code]. *)
Definition built_from (code : str) (raw : Segment) (sr : SegmentResult) : Prop :=
  sr_start sr = raw_start raw /\ sr_end sr = raw_end raw
  /\ sr_text sr = trimmed raw
  /\ sr_avg_logprob sr = raw_avg_logprob raw
  /\ sr_no_speech_prob sr = raw_no_speech_prob raw
  /\ snd (_phonemize_text (sr_text sr) code) = Return (sr_ipa sr).

(** A call to the phonemization engine, in the language [code]. *)
Definition phonemize_call_in (code : str) (c : call) : Prop :=
  match c with
  | Call_phonemize _ l _ _ _ _ _ => l = code
  | _ => False
  end.

(** A call that is not to the resolver, and uses [code] if it is to the
    phonemization engine. *)
Definition resolver_free_call (code : str) (c : call) : Prop :=
  match c with
  | Call_phonemize _ l _ _ _ _ _ => l = code
  | Call_resolve _ => False
  | _ => True
  end.

(** A call that uses [code] if it is to the phonemization engine. *)
Definition phonemizes_in (code : str) (c : call) : Prop :=
  match c with
  | Call_phonemize _ l _ _ _ _ _ => l = code
  | _ => True
  end.

(** The iteration ends without raising. *)
Fixpoint completes (it : seg_iter) : bool :=
  match it with
  | iter_stop => true
  | iter_yield _ rest => completes rest
  | iter_raise _ => false
  end.

(** The precision the orchestrator selects. *)
Definition selected_compute_type (device : str) (compute_type : option str) : str :=
  match compute_type with
  | None => if bool_decide (device = py "cpu") then py "int8" else py "auto"
  | Some c => c
  end.

(** What the recognizer gives a run with these arguments. *)
Definition recognise (audio_path : Path + str) (model_size : str)
    (language : option str) (device : str) (compute_type : option str)
    (vad_filter : bool) : outcome (seg_iter * TranscriptionInfo) :=
  match WhisperModel model_size device
          (selected_compute_type device compute_type) with
  | Raise e => Raise e
  | Return model =>
      Model_transcribe model (Path_str (Path_ audio_path)) language 1 1
        vad_filter float_0_0
  end.

(** The two language fields when every override other than [None] is taken
    as it is. *)
Definition language_if_given (language detected : option str) : str :=
  match language with
  | Some l => l
  | None => match detected with Some d => d | None => [] end
  end.

Definition ipa_language_if_given (ipa_language : option str)
    (recognised_language : str) : str :=
  match ipa_language with
  | Some c => c
  | None => _resolve_espeak_language (Some recognised_language)
  end.
End Vocabulary.

(** ** Vocabulary for the calls of a run *)

Section CallVocabulary.
Context `{Unicode} `{Platform} `{!Engines}.

(** The engine as the adapter calls it, and the record of such a call. *)
Definition engine (text code : str) : outcome str :=
  phonemize text code (py "espeak") true true true _PUNCTUATION.

Definition phonemize_call (text code : str) : call :=
  Call_phonemize text code (py "espeak") true true true _PUNCTUATION.

(** The exception an iteration ends with, if it ends with one. *)
Fixpoint raised (it : seg_iter) : option exn :=
  match it with
  | iter_stop => None
  | iter_yield _ rest => raised rest
  | iter_raise e => Some e
  end.

(** The code a run phonemizes with, given what the recognizer reported. *)
Definition selected_ipa_code (language ipa_language : option str)
    (info : TranscriptionInfo) : str :=
  if opt_bool ipa_language then default [] ipa_language
  else _resolve_espeak_language
         (Some (str_or language (str_or (info_language info) []))).

Definition is_recognizer_call (c : call) : Prop :=
  match c with
  | Call_WhisperModel _ _ _ | Call_transcribe _ _ _ _ _ _ => True
  | _ => False
  end.

Definition is_phonemize_call (c : call) : Prop :=
  match c with
  | Call_phonemize _ _ _ _ _ _ _ => True
  | _ => False
  end.
End CallVocabulary.

(** ** The command line of [speechtoipa/cli.py] *)

Section Namespace.
Context `{Platform}.

(** No [Path] object anywhere in a value: [json.dumps] refuses one. *)
Fixpoint path_free (v : pyvalue) : bool :=
  match v with
  | PyPath _ => false
  | PyList l => forallb path_free l
  | PyDict items => forallb (fun kv => path_free (snd kv)) items
  | PyNone | PyStr _ | PyFloat _ => true
  end.

(** The keys of a dictionary, in order. *)
Definition dict_keys (v : pyvalue) : list str :=
  match v with
  | PyDict items => List.map fst items
  | _ => []
  end.

(** The parsed arguments, one attribute per option of [_build_parser]. *)
Record Namespace := {
  args_audio : Path;
  args_model : str;
  args_language : option str;
  args_ipa_language : option str;
  args_device : str;
  args_compute_type : option str;
  args_disable_vad : bool;
  args_output : option Path;
  args_no_color : bool;
  args_segments : bool
}.

(** What the command line does besides the calls of the pipeline.  The
    parser writes its help, or its usage and error message, before it
    exits. *)
Inductive cli_event :=
| Ev_pipeline (c : call)
| Ev_write_text (p : Path) (data encoding : str)
| Ev_print (s : str)
| Ev_parser_output (s : str).

Definition is_pipeline_event (ev : cli_event) : Prop :=
  match ev with
  | Ev_pipeline _ => True
  | _ => False
  end.

Definition is_print_event (ev : cli_event) : Prop :=
  match ev with
  | Ev_print _ => True
  | _ => False
  end.
End Namespace.

(** The library functions the command line relies on. *)
Class Console `{Platform} := {
  (* format(x, spec) for a float, as in an f-string field {x:spec} *)
  format_float : str -> float -> str;
  (* json.dumps(value, indent=..., ensure_ascii=...) *)
  json_dumps : pyvalue -> Z -> bool -> str;
  (* _build_parser().parse_args(argv) *)
  parse_args : option (list str) -> outcome Namespace;
  (* what parse_args(argv) writes to stdout or stderr before it raises
     SystemExit *)
  parser_output : option (list str) -> str;
  (* path.write_text(data, encoding=...) *)
  Path_write_text : Path -> str -> str -> outcome unit;
  (* print(s) *)
  py_print : str -> outcome unit
}.

Definition ESC : N := 27.
Definition newline : N := 10.
Definition en_dash : N := 8211.

Section Cli.
Context `{Unicode} `{Platform} `{!Engines} `{!Console}.

Definition to_json (self : TranscriptionResult) (indent : Z) : str :=
  json_dumps (TranscriptionResult_to_dict self) indent false.

(** The inner function [style] of [_format_summary]. *)
Definition style (color : bool) (text code : str) : str :=
  if negb color then text
  else [ESC] ++ py "[" ++ code ++ py "m" ++ text ++ [ESC] ++ py "[0m".

(** The list [lines] of [_format_summary] before the segments are added. *)
Definition summary_lines (result : TranscriptionResult) (color : bool)
    : list str :=
  let confidence_str :=
    match language_confidence result with
    | None => py "n/a"
    | Some x => format_float (py ".3f") x
    end in
  [ style color (py "Speech-to-IPA prototype") (py "1;36");
    py "Audio: " ++ Path_str (audio_path result);
    py "Model: " ++ model_size result;
    py "Detected language: "
      ++ str_or (Some (language result)) (py "unknown")
      ++ py " (confidence=" ++ confidence_str ++ py ")";
    py "IPA backend language: " ++ ipa_language result;
    match duration result with
    | Some d => py "Duration: " ++ format_float (py ".2f") d ++ py "s"
    | None => py "Duration: n/a"
    end;
    [];
    style color (py "Transcript:") (py "1;37");
    str_or (Some (text result)) (py "<empty>");
    [];
    style color (py "IPA:") (py "1;37");
    str_or (Some (ipa result)) (py "<empty>") ].

(** The line of one segment. *)
Definition segment_line (color : bool) (seg : SegmentResult) : str :=
  py "[" ++ format_float (py "6.2f") (sr_start seg) ++ py "s "
    ++ [en_dash] ++ py " " ++ format_float (py "6.2f") (sr_end seg)
    ++ py "s] " ++ sr_text seg ++ [newline] ++ py "    "
    ++ style color (sr_ipa seg) (py "36").

Definition _format_summary (result : TranscriptionResult)
    (color with_segments : bool) : str :=
  let lines := summary_lines result color in
  let lines :=
    if with_segments && negb (Nat.eqb (length (segments result)) 0) then
      (lines ++ [[]]) ++ [style color (py "Segments:") (py "1;37")]
        ++ List.map (segment_line color) (segments result)
    else lines in
  str_join [newline] lines.

Definition run_cli (argv : option (list str)) : list cli_event * outcome Z :=
  match parse_args argv with
  | Raise e => ([Ev_parser_output (parser_output argv)], Raise e)
  | Return args =>
      match transcribe_audio_to_ipa (inl (args_audio args)) (args_model args)
              (args_language args) (args_ipa_language args)
              (args_device args) (args_compute_type args)
              (negb (args_disable_vad args)) with
      | (t, Raise e) => (List.map Ev_pipeline t, Raise e)
      | (t, Return result) =>
          let written :=
            match args_output args with
            | Some output =>
                ([Ev_write_text output (to_json result 2) (py "utf-8")],
                 Path_write_text output (to_json result 2) (py "utf-8"))
            | None => ([], Return tt)
            end in
          match written with
          | (tw, Raise e) => (List.map Ev_pipeline t ++ tw, Raise e)
          | (tw, Return _) =>
              let summary :=
                _format_summary result (negb (args_no_color args))
                  (args_segments args) in
              (List.map Ev_pipeline t ++ tw ++ [Ev_print summary],
               match py_print summary with
               | Return _ => Return 0%Z
               | Raise e => Raise e
               end)
          end
      end
  end.
End Cli.

(** A console for the concrete worlds: every float prints as "0.00", every
    value serialises to "{}", every write and print succeeds, and the
    command line is [audio.wav --output out.json --no-color --segments]. *)
Definition demo_args (audio : string) : @Namespace demo_platform :=
  @Build_Namespace demo_platform (py audio) (py "small") None None (py "cpu")
    None false (Some (py "out.json")) true true.

Definition demo_console (audio : string) : @Console demo_platform :=
  {| format_float := fun _ _ => py "0.00";
     json_dumps := fun _ _ _ => py "{}";
     parse_args := fun _ => Return (demo_args audio);
     parser_output := fun _ => [];
     Path_write_text := fun _ _ _ => Return tt;
     py_print := fun _ => Return tt |}.

(** The same console on a disk that refuses the write. *)
Definition permission_denied : exn :=
  Exception (Exception_other (py "PermissionError")) (py "out.json") None.

Definition readonly_console (audio : string) : @Console demo_platform :=
  {| format_float := fun _ _ => py "0.00";
     json_dumps := fun _ _ _ => py "{}";
     parse_args := fun _ => Return (demo_args audio);
     parser_output := fun _ => [];
     Path_write_text := fun _ _ _ => Raise permission_denied;
     py_print := fun _ => Return tt |}.

(** More concrete worlds: a phonemizer that rejects its input, a model that
    cannot be loaded, an iteration that breaks off and a silent recording. *)
Definition value_error (text language : str) : outcome str :=
  Raise (Exception (Exception_other (py "ValueError")) (py "bad text") None).

Definition model_missing : exn :=
  Exception (Exception_other (py "OSError")) (py "model not found") None.

Definition broken_engines : @Engines demo_platform :=
  {| Model := unit;
     WhisperModel := fun _ _ _ => Raise model_missing;
     Model_transcribe := fun _ _ _ _ _ _ _ => Return demo_hello;
     phonemize := fun text language _ _ _ _ _ => slashes text language |}.

Definition decode_failed : exn :=
  Exception (Exception_other (py "ValueError")) (py "decode failed") None.

Definition demo_interrupted : @seg_iter demo_platform * @TranscriptionInfo demo_platform :=
  (iter_yield (demo_segment (0, 10) (12, 10) "Hello") (iter_raise decode_failed),
   demo_info)%Z.

Definition demo_silent : @seg_iter demo_platform * @TranscriptionInfo demo_platform :=
  (iter_yield (demo_segment (0, 10) (12, 10) "  ")
     (iter_yield (demo_segment (12, 10) (20, 10) "") iter_stop),
   demo_info)%Z.

(** The result of a silent recording. *)
Definition demo_empty_result : @TranscriptionResult demo_platform :=
  @Build_TranscriptionResult demo_platform (py "audio.wav") [] [] []
    (py "en") (Some (95, 100)%Z) (Some (20, 10)%Z) (py "small") (py "en-us").

(** ** Facts about strings *)

(** No white space at the front. *)
Definition head_ok (s : str) : Prop :=
  match s with
  | [] => True
  | c :: _ => isspace c = false
  end.

(** No white space at the back. *)
Definition last_ok (s : str) : Prop := head_ok (rev s).

Lemma str_bool_true (s : str) : str_bool s = true <-> s <> [].
Proof. destruct s; simpl; split; intros; congruence. Qed.

Lemma str_bool_false (s : str) : str_bool s = false <-> s = [].
Proof. destruct s; simpl; split; intros; congruence. Qed.

Lemma str_lstrip_head_ok (s : str) : head_ok (str_lstrip s).
Proof.
  induction s as [|c s IH]; simpl; [exact I|].
  destruct (isspace c) eqn:E; [exact IH | exact E].
Qed.

Lemma str_lstrip_fix (s : str) : head_ok s -> str_lstrip s = s.
Proof. destruct s as [|c s]; simpl; [reflexivity|]. intros ->. reflexivity. Qed.

(** [lstrip] only removes white space. *)
Lemma str_lstrip_split (s : str) :
  exists w, s = w ++ str_lstrip s /\ forallb isspace w = true.
Proof.
  induction s as [|c s [w [Hs Hw]]]; simpl.
  - exists []. split; reflexivity.
  - destruct (isspace c) eqn:E.
    + exists (c :: w). simpl. rewrite E, Hw. split; [congruence | reflexivity].
    + exists []. split; reflexivity.
Qed.

Lemma str_rstrip_split (s : str) :
  exists w, s = str_rstrip s ++ w /\ forallb isspace w = true.
Proof.
  destruct (str_lstrip_split (rev s)) as [w [Hs Hw]].
  exists (rev w). split.
  - unfold str_rstrip. rewrite <- rev_app_distr, <- Hs, rev_involutive.
    reflexivity.
  - rewrite forallb_forall in *. intros c Hc. apply Hw, in_rev, Hc.
Qed.

Lemma str_rstrip_head_ok (s : str) : head_ok s -> head_ok (str_rstrip s).
Proof.
  intros Hs. destruct (str_rstrip_split s) as [w [E Hw]].
  destruct (str_rstrip s) as [|c r]; [exact I|].
  rewrite E in Hs. exact Hs.
Qed.

Lemma str_rstrip_last_ok (s : str) : last_ok (str_rstrip s).
Proof.
  unfold last_ok, str_rstrip. rewrite rev_involutive.
  apply str_lstrip_head_ok.
Qed.

Lemma str_strip_head_ok (s : str) : head_ok (str_strip s).
Proof. apply str_rstrip_head_ok, str_lstrip_head_ok. Qed.

Lemma str_strip_last_ok (s : str) : last_ok (str_strip s).
Proof. apply str_rstrip_last_ok. Qed.

(** [strip] leaves a string alone when neither end is white space. *)
Lemma str_strip_fix (s : str) : head_ok s -> last_ok s -> str_strip s = s.
Proof.
  intros Hh Hl. unfold str_strip, str_rstrip.
  rewrite (str_lstrip_fix s Hh), (str_lstrip_fix (rev s) Hl).
  apply rev_involutive.
Qed.

Lemma str_strip_idem (s : str) : str_strip (str_strip s) = str_strip s.
Proof. apply str_strip_fix; [apply str_strip_head_ok | apply str_strip_last_ok]. Qed.

Lemma head_ok_app (s t : str) : s <> [] -> head_ok s -> head_ok (s ++ t).
Proof. destruct s; simpl; [congruence | auto]. Qed.

Lemma last_ok_app (s t : str) : t <> [] -> last_ok t -> last_ok (s ++ t).
Proof.
  unfold last_ok. intros Ht Hl. rewrite rev_app_distr.
  apply head_ok_app; [|exact Hl].
  intros E. apply Ht. rewrite <- (rev_involutive t), E. reflexivity.
Qed.

Lemma str_join_nonempty (sep p : str) (ps : list str) :
  p <> [] -> str_join sep (p :: ps) <> [].
Proof. destruct p; [congruence|]. destruct ps; simpl; congruence. Qed.

Lemma str_join_head_ok (sep : str) (parts : list str) :
  Forall (fun p => p <> [] /\ head_ok p) parts -> head_ok (str_join sep parts).
Proof.
  intros Hp. destruct Hp as [|p ps [Hne Hh] _]; [exact I|].
  destruct ps; simpl; [exact Hh|]. apply head_ok_app; assumption.
Qed.

Lemma str_join_last_ok (sep : str) (parts : list str) :
  Forall (fun p => p <> [] /\ last_ok p) parts -> last_ok (str_join sep parts).
Proof.
  induction 1 as [|p ps [Hne Hl] Hps IH]; [exact I|].
  destruct ps as [|q ps]; [exact Hl|].
  change (str_join sep (p :: q :: ps))
    with (p ++ sep ++ str_join sep (q :: ps)).
  rewrite app_assoc. apply last_ok_app; [|exact IH].
  apply str_join_nonempty. inversion Hps as [|? ? [Hq _] _]. exact Hq.
Qed.

(** Joining stripped, non-empty parts gives a string that [strip] keeps. *)
Lemma str_strip_join (sep : str) (parts : list str) :
  Forall (fun p => p <> [] /\ str_strip p = p) parts ->
  str_strip (str_join sep parts) = str_join sep parts.
Proof.
  intros Hp. apply str_strip_fix.
  - apply str_join_head_ok. eapply Forall_impl; [exact Hp|].
    intros p [Hne E]. split; [exact Hne|]. rewrite <- E. apply str_strip_head_ok.
  - apply str_join_last_ok. eapply Forall_impl; [exact Hp|].
    intros p [Hne E]. split; [exact Hne|]. rewrite <- E. apply str_strip_last_ok.
Qed.

Lemma map_fix {A} (f : A -> A) (l : list A) :
  (forall x, In x l -> f x = x) -> List.map f l = l.
Proof.
  induction l as [|x l IH]; simpl; intros Hf; [reflexivity|].
  rewrite Hf by (left; reflexivity). f_equal. apply IH. intros; apply Hf.
  right. assumption.
Qed.

Lemma str_contains_In (sep : N) (s : str) :
  str_contains sep s = true <-> In sep s.
Proof.
  unfold str_contains. rewrite existsb_exists. split.
  - intros [c [Hc E]]. apply N.eqb_eq in E. subst. exact Hc.
  - intros Hs. exists sep. split; [exact Hs | apply N.eqb_refl].
Qed.

Lemma str_contains_not_In (sep : N) (s : str) :
  str_contains sep s = false <-> ~ In sep s.
Proof.
  rewrite <- str_contains_In. destruct (str_contains sep s); split; intros;
    congruence.
Qed.

(** [split(sep, 1)[0]] is the part before the first separator. *)
Lemma str_split1_hd (sep : N) (base rest : str) :
  ~ In sep base -> hd [] (str_split1 sep (base ++ sep :: rest)) = base.
Proof.
  induction base as [|c base IH]; simpl; intros Hn.
  - rewrite N.eqb_refl. reflexivity.
  - destruct (N.eqb_spec c sep) as [->|Hc]; [exfalso; apply Hn; now left|].
    specialize (IH (fun Hin => Hn (or_intror Hin))).
    destruct (str_split1 sep (base ++ sep :: rest)); simpl in *; congruence.
Qed.

(** ** Facts about the resolver *)

Section ResolverFacts.
Context `{Unicode}.

Lemma plain_tag_normal (s : str) :
  plain_tag s = true ->
  str_replace underscore hyphen (str_strip (str_lower s)) = s.
Proof.
  unfold plain_tag. intros [_ Hs]%andb_prop.
  assert (Hc : forall c, In c s -> plain_char c = true)
    by (apply forallb_forall; exact Hs).
  assert (Hparts : forall c, In c s ->
            is_ascii c = true /\ ascii_lower c = c /\ isspace c = false
            /\ (c =? underscore) = false).
  { intros c Hin. specialize (Hc c Hin). unfold plain_char in Hc.
    repeat (apply andb_prop in Hc; destruct Hc as [Hc ?]).
    repeat split; try assumption.
    - apply N.eqb_eq. assumption.
    - apply negb_true_iff. assumption.
    - apply negb_true_iff. assumption. }
  rewrite str_lower_ascii
    by (apply forallb_forall; intros c Hin; apply (Hparts c Hin)).
  rewrite map_fix by (intros c Hin; apply (Hparts c Hin)).
  rewrite str_strip_fix.
  - unfold str_replace. apply map_fix. intros c Hin.
    destruct (Hparts c Hin) as (_ & _ & _ & ->). reflexivity.
  - destruct s as [|c s']; [exact I|]. apply (Hparts c). now left.
  - unfold last_ok. destruct (rev s) as [|c r] eqn:E; [exact I|].
    apply (Hparts c). apply in_rev. rewrite E. now left.
Qed.

Lemma lang_map_keys_plain (tag code : str) :
  _ESPEAK_LANG_MAP !! tag = Some code -> plain_tag tag = true.
Proof.
  intros Hl. apply elem_of_list_to_map_2, list_elem_of_In in Hl.
  assert (Hall : forallb (fun kv => plain_tag (fst kv))
                   _ESPEAK_LANG_MAP_items = true) by (vm_compute; reflexivity).
  rewrite forallb_forall in Hall. exact (Hall _ Hl).
Qed.

(** On ASCII hints the resolver does not depend on the Unicode tables. *)
Lemma resolve_ascii (hint : str) :
  forallb is_ascii hint = true ->
  _resolve_espeak_language (Some hint)
  = @_resolve_espeak_language ascii_unicode (Some hint).
Proof.
  intros Ha. unfold _resolve_espeak_language, _normalise_lang_code.
  rewrite (str_lower_ascii hint Ha). reflexivity.
Qed.

Lemma resolve_unfold (hint : str) :
  let n := str_replace underscore hyphen (str_strip (str_lower hint)) in
  hint <> [] -> n <> [] ->
  _resolve_espeak_language (Some hint) = resolve_without_empty_guard hint.
Proof.
  intros n Hh Hn. apply str_bool_true in Hh, Hn.
  unfold _resolve_espeak_language, resolve_without_empty_guard.
  unfold _normalise_lang_code, opt_bool. fold n. rewrite Hh, Hn.
  reflexivity.
Qed.
End ResolverFacts.

Section ResolverTheorems.
Context `{Unicode}.

(** The map holds exactly the items of the dictionary literal. *)
Lemma lang_map_lookup_items (tag code : str) :
  _ESPEAK_LANG_MAP !! tag = Some code <-> In (tag, code) _ESPEAK_LANG_MAP_items.
Proof.
  rewrite <- list_elem_of_In. symmetry. apply elem_of_list_to_map.
  apply (bool_decide_unpack _). vm_compute. reflexivity.
Qed.

(** C1: every key of the language table resolves to the value the table
    gives it (so "en" to "en-us", "pt" to "pt-br", and "zh", "zh-cn",
    "zh-tw" to "zh"), and an absent or empty hint resolves to the default
    "en-us". *)
Theorem resolve_table_and_default :
  (forall tag code : str,
      _ESPEAK_LANG_MAP !! tag = Some code ->
      _resolve_espeak_language (Some tag) = code)
  /\ _resolve_espeak_language (Some (py "en")) = py "en-us"
  /\ _resolve_espeak_language (Some (py "pt")) = py "pt-br"
  /\ _resolve_espeak_language (Some (py "zh")) = py "zh"
  /\ _resolve_espeak_language (Some (py "zh-cn")) = py "zh"
  /\ _resolve_espeak_language (Some (py "zh-tw")) = py "zh"
  /\ _resolve_espeak_language None = py "en-us"
  /\ _resolve_espeak_language (Some []) = py "en-us".
Proof.
  assert (Htable : forall tag code : str,
             _ESPEAK_LANG_MAP !! tag = Some code ->
             _resolve_espeak_language (Some tag) = code).
  { intros tag code Hl.
    pose proof (lang_map_keys_plain tag code Hl) as Hp.
    pose proof (plain_tag_normal tag Hp) as Hn.
    assert (Hne : tag <> []).
    { apply str_bool_true. unfold plain_tag in Hp.
      apply andb_prop in Hp. apply Hp. }
    rewrite resolve_unfold; [|exact Hne | rewrite Hn; exact Hne].
    unfold resolve_without_empty_guard. rewrite Hn, Hl. reflexivity. }
  split; [exact Htable|].
  repeat split; try (apply Htable; vm_compute; reflexivity); reflexivity.
Qed.

(** C2, amended: a non-empty hint is normalised (lower case, stripped,
    underscores to hyphens); when the normalised code is not empty the
    resolver returns its table value on an exact match, else the table
    value of the part before the first hyphen if the code has a hyphen and
    that part is a key, else the normalised code itself; when the
    normalised code is empty it returns "en-us".  So "DE_at" resolves to
    the table value of "de" and "xx-yy" to itself. *)
Theorem resolve_normalises_then_falls_back :
  (forall hint n : str,
      hint <> [] ->
      n = str_replace underscore hyphen (str_strip (str_lower hint)) ->
      _normalise_lang_code (Some hint) = Some n
      /\ (n = [] -> _resolve_espeak_language (Some hint) = py "en-us")
      /\ (n <> [] ->
          _resolve_espeak_language (Some hint) = resolve_without_empty_guard hint
          /\ (forall code, _ESPEAK_LANG_MAP !! n = Some code ->
                _resolve_espeak_language (Some hint) = code)
          /\ (forall base rest code,
                _ESPEAK_LANG_MAP !! n = None ->
                n = base ++ hyphen :: rest -> ~ In hyphen base ->
                _ESPEAK_LANG_MAP !! base = Some code ->
                _resolve_espeak_language (Some hint) = code)
          /\ (forall base rest,
                _ESPEAK_LANG_MAP !! n = None ->
                n = base ++ hyphen :: rest -> ~ In hyphen base ->
                _ESPEAK_LANG_MAP !! base = None ->
                _resolve_espeak_language (Some hint) = n)
          /\ (_ESPEAK_LANG_MAP !! n = None -> ~ In hyphen n ->
                _resolve_espeak_language (Some hint) = n)))
  /\ (exists code, _ESPEAK_LANG_MAP !! py "de" = Some code
        /\ _resolve_espeak_language (Some (py "DE_at")) = code)
  /\ _resolve_espeak_language (Some (py "xx-yy")) = py "xx-yy".
Proof.
  split; [|split].
  - intros hint n Hh ->.
    set (n := str_replace underscore hyphen (str_strip (str_lower hint))).
    split; [reflexivity|]. split.
    + intros Hn. unfold _resolve_espeak_language, _normalise_lang_code, opt_bool.
      fold n. rewrite Hn. apply str_bool_true in Hh. rewrite Hh. reflexivity.
    + intros Hn. rewrite (resolve_unfold hint Hh Hn).
      unfold resolve_without_empty_guard. fold n.
      split; [reflexivity|]. repeat split.
      * intros code ->. reflexivity.
      * intros base rest code -> E Hb Hl.
        rewrite E, (proj2 (str_contains_In _ _))
          by (apply in_or_app; right; now left).
        rewrite (str_split1_hd _ _ _ Hb), Hl. reflexivity.
      * intros base rest -> E Hb Hl.
        rewrite E, (proj2 (str_contains_In _ _))
          by (apply in_or_app; right; now left).
        rewrite (str_split1_hd _ _ _ Hb), Hl. reflexivity.
      * intros -> Hn'. apply str_contains_not_In in Hn'. rewrite Hn'.
        reflexivity.
  - exists (py "de"). split; [vm_compute; reflexivity|].
    rewrite resolve_ascii by reflexivity. vm_compute. reflexivity.
  - rewrite resolve_ascii by reflexivity. vm_compute. reflexivity.
Qed.
End ResolverTheorems.

(** ** Facts about the monad, the adapter and the loop *)

Section PipelineFacts.
Context `{Unicode} `{Platform} `{!Engines}.

Lemma bind_Return {A B} (m : M A) (k : A -> M B) (tr : list call) (b : B) :
  bind m k = (tr, Return b) ->
  exists t1 a t2, m = (t1, Return a) /\ k a = (t2, Return b) /\ tr = t1 ++ t2.
Proof.
  destruct m as [t1 [a|e]]; simpl; [|discriminate].
  destruct (k a) as [t2 o] eqn:E. intros [= <- ->]. eauto 10.
Qed.

Lemma bind_trace {A B} (m : M A) (k : A -> M B) :
  fst (bind m k)
  = fst m ++ match snd m with Return a => fst (k a) | Raise _ => [] end.
Proof.
  destruct m as [t1 [a|e]]; simpl.
  - destruct (k a); reflexivity.
  - symmetry. apply app_nil_r.
Qed.

(** The adapter on a text that has something in it: one engine call. *)
Lemma _phonemize_text_spoken (text ipa_language : str) :
  str_strip text <> [] ->
  _phonemize_text text ipa_language
  = ([Call_phonemize text ipa_language (py "espeak") true true true
        _PUNCTUATION],
     match phonemize text ipa_language (py "espeak") true true true
             _PUNCTUATION with
     | Return s => Return s
     | Raise exc =>
         if is_RuntimeError exc then
           Raise (Exception RuntimeError
                    (py "Failed to phonemize text. Ensure espeak-ng is installed and the language '"
                       ++ ipa_language ++ py "' is supported.")
                    (Some exc))
         else Raise exc
     end).
Proof.
  intros Hs. apply str_bool_true in Hs. unfold _phonemize_text.
  rewrite Hs. cbn [negb].
  destruct (phonemize _ _ _ _ _ _ _) as [s|exc]; [reflexivity|].
  destruct (is_RuntimeError exc); reflexivity.
Qed.

Lemma _phonemize_text_blank (text ipa_language : str) :
  str_strip text = [] -> _phonemize_text text ipa_language = ([], Return []).
Proof.
  intros Hs. unfold _phonemize_text. rewrite Hs. reflexivity.
Qed.

Lemma _phonemize_text_trace (text code : str) :
  Forall (phonemize_call_in code) (fst (_phonemize_text text code)).
Proof.
  destruct (str_strip text) eqn:E.
  - rewrite _phonemize_text_blank by exact E. constructor.
  - rewrite _phonemize_text_spoken by congruence.
    repeat constructor.
Qed.

Lemma for_segment_in_trace (it : seg_iter) (code : str)
    (segs : list SegmentResult) (parts : list str) :
  Forall (phonemize_call_in code) (fst (for_segment_in it code segs parts)).
Proof.
  revert segs parts. induction it as [|segment rest IH|e]; intros segs parts;
    simpl; try constructor.
  destruct (str_bool (str_strip (raw_text segment))); cbn [negb]; [|apply IH].
  rewrite bind_trace. apply Forall_app. split; [apply _phonemize_text_trace|].
  destruct (snd _); [apply IH | constructor].
Qed.

(** What the loop returns: one record per spoken segment, in order, after
    the records and texts it started with. *)
Lemma for_segment_in_Return (it : seg_iter) (code : str)
    (segs segs' : list SegmentResult) (parts parts' : list str)
    (tr : list call) :
  for_segment_in it code segs parts = (tr, Return (segs', parts')) ->
  exists new,
    segs' = segs ++ new
    /\ Forall2 (built_from code) (List.filter spoken (yielded it)) new
    /\ parts' = parts ++ List.map trimmed (List.filter spoken (yielded it)).
Proof.
  revert segs parts tr.
  induction it as [|segment rest IH|e]; intros segs parts tr; simpl.
  - intros [= <- <- <-]. exists []. rewrite !app_nil_r.
    repeat split; constructor.
  - change (str_bool (str_strip (raw_text segment))) with (spoken segment).
    destruct (spoken segment) eqn:Hs; cbn [negb].
    + intros (t1 & segment_ipa & t2 & Hp & Hrest & ->)%bind_Return.
      apply IH in Hrest as (new & -> & Hnew & ->).
      eexists (_ :: new). rewrite <- !app_assoc. simpl.
      repeat split; try reflexivity.
      constructor; [|exact Hnew].
      unfold built_from, trimmed; simpl. rewrite Hp.
      repeat split; reflexivity.
    + apply IH.
  - discriminate.
Qed.

Lemma tell_Return (c : call) (t : list call) (u : unit) :
  tell c = (t, Return u) -> t = [c].
Proof. unfold tell. congruence. Qed.

Lemma lift_Return {A} (o : outcome A) (t : list call) (a : A) :
  lift o = (t, Return a) -> o = Return a /\ t = [].
Proof. unfold lift. intros [= -> <-]. split; reflexivity. Qed.

(** Everything a returning run fixes about its result and its calls. *)
Lemma transcribe_audio_to_ipa_Return (path : Path + str) (size : str)
    (lang ipa_lang : option str) (device : str) (ctype : option str)
    (vad : bool) (tr : list call) (r : TranscriptionResult) :
  transcribe_audio_to_ipa path size lang ipa_lang device ctype vad
  = (tr, Return r) ->
  exists it info parts tl tp,
    Path_exists (Path_ path) = true
    /\ recognise path size lang device ctype vad = Return (it, info)
    /\ for_segment_in it (ipa_language r) [] []
       = (tl, Return (segments r, parts))
    /\ (if str_bool (text r) then _phonemize_text (text r) (ipa_language r)
        else ret []) = (tp, Return (ipa r))
    /\ tr = Call_WhisperModel size device (selected_compute_type device ctype)
            :: Call_transcribe (Path_str (Path_ path)) lang 1 1 vad float_0_0
            :: (if opt_bool ipa_lang then []
                else [Call_resolve (Some (language r))]) ++ tl ++ tp
    /\ audio_path r = Path_ path
    /\ text r = str_strip (str_join (py " ") parts)
    /\ language r = str_or lang (str_or (info_language info) [])
    /\ ipa_language r
       = (if opt_bool ipa_lang then default [] ipa_lang
          else _resolve_espeak_language (Some (language r)))
    /\ language_confidence r = info_language_probability info
    /\ duration r = info_duration info
    /\ model_size r = size.
Proof.
  unfold transcribe_audio_to_ipa, recognise.
  fold (selected_compute_type device ctype).
  destruct (Path_exists (Path_ path)); cbn [negb]; [|discriminate].
  intros (t1 & [] & t1' & ->%tell_Return & Hrun & ->)%bind_Return.
  apply bind_Return in Hrun as (t2 & model & t2' & [-> ->]%lift_Return & Hrun & ->).
  apply bind_Return in Hrun as (t3 & [] & t3' & ->%tell_Return & Hrun & ->).
  apply bind_Return in Hrun
    as (t4 & [it info] & t4' & [-> ->]%lift_Return & Hrun & ->).
  apply bind_Return in Hrun as (t5 & code & t5' & Hcode & Hrun & ->).
  apply bind_Return in Hrun as (tl & [segs parts] & t6' & Hloop & Hrun & ->).
  apply bind_Return in Hrun as (tp & full_ipa & t7' & Hipa & Hrun & ->).
  injection Hrun as <- <-. cbn [audio_path text ipa segments language
    language_confidence duration model_size ipa_language].
  exists it, info, parts, tl, tp.
  assert (Hc : code = (if opt_bool ipa_lang then default [] ipa_lang
                       else _resolve_espeak_language
                              (Some (str_or lang (str_or (info_language info) []))))
               /\ t5 = (if opt_bool ipa_lang then []
                        else [Call_resolve
                                (Some (str_or lang (str_or (info_language info) [])))])).
  { destruct (opt_bool ipa_lang).
    - injection Hcode as <- <-. split; reflexivity.
    - injection Hcode as <- <-. split; reflexivity. }
  destruct Hc as [Hc Ht5]. rewrite <- Hc, Ht5.
  repeat split; try reflexivity; try assumption.
  rewrite app_nil_r. reflexivity.
Qed.

Lemma phonemize_call_in_resolver_free (code : str) (c : call) :
  phonemize_call_in code c -> resolver_free_call code c.
Proof. destruct c; simpl; tauto. Qed.

Lemma phonemize_call_in_phonemizes_in (code : str) (c : call) :
  phonemize_call_in code c -> phonemizes_in code c.
Proof. destruct c; simpl; tauto. Qed.

(** With a non-empty override no call goes to the resolver, whatever the
    outcome, and every engine call carries the override. *)
Lemma transcribe_audio_to_ipa_override_trace (path : Path + str)
    (size : str) (lang : option str) (c : str) (device : str)
    (ctype : option str) (vad : bool) :
  c <> [] ->
  Forall (resolver_free_call c)
    (fst (transcribe_audio_to_ipa path size lang (Some c) device ctype vad)).
Proof.
  intros Hc%str_bool_true. unfold transcribe_audio_to_ipa.
  destruct (Path_exists (Path_ path)); cbn [negb]; [|constructor].
  rewrite bind_trace. cbn [tell fst snd app]. constructor; [exact I|].
  rewrite bind_trace. cbn [lift fst snd app].
  destruct (WhisperModel _ _ _) as [model|e]; [|constructor].
  rewrite bind_trace. cbn [tell fst snd app]. constructor; [exact I|].
  rewrite bind_trace. cbn [lift fst snd app].
  destruct (Model_transcribe _ _ _ _ _ _ _) as [[it info]|e]; [|constructor].
  cbn [opt_bool]. rewrite Hc. rewrite bind_trace. cbn [ret fst snd app].
  rewrite bind_trace. apply Forall_app. split.
  - eapply Forall_impl; [apply for_segment_in_trace|].
    apply phonemize_call_in_resolver_free.
  - destruct (snd _) as [[segs parts]|e]; [|constructor].
    rewrite bind_trace. apply Forall_app. split.
    + destruct (str_bool (str_strip _)); [|constructor].
      eapply Forall_impl; [apply _phonemize_text_trace|].
      apply phonemize_call_in_resolver_free.
    + destruct (snd _); constructor.
Qed.

(** The loop returns when the iteration completes and the engine does not
    fail. *)
Lemma for_segment_in_returns (it : seg_iter) (code : str)
    (segs : list SegmentResult) (parts : list str) :
  completes it = true ->
  (forall text, exists s,
      phonemize text code (py "espeak") true true true _PUNCTUATION
      = Return s) ->
  exists tr res, for_segment_in it code segs parts = (tr, Return res).
Proof.
  intros Hit Hg. revert segs parts.
  induction it as [|segment rest IH|e]; intros segs parts; simpl in *.
  - eexists _, _. reflexivity.
  - destruct (str_bool (str_strip (raw_text segment))) eqn:Hs; cbn [negb];
      [|apply IH, Hit].
    rewrite _phonemize_text_spoken
      by (rewrite str_strip_idem; apply str_bool_true; exact Hs).
    destruct (Hg (str_strip (raw_text segment))) as [s ->].
    cbn [bind]. edestruct (IH Hit) as (tr & res & ->).
    eexists _, _. reflexivity.
  - discriminate.
Qed.

(** The orchestrator returns a result when the file exists, the recognizer
    delivers a complete sequence and the engine does not fail. *)
Lemma transcribe_audio_to_ipa_returns (path : Path + str) (size : str)
    (lang ipa_lang : option str) (device : str) (ctype : option str)
    (vad : bool) (it : seg_iter) (info : TranscriptionInfo) :
  Path_exists (Path_ path) = true ->
  recognise path size lang device ctype vad = Return (it, info) ->
  completes it = true ->
  (forall text code, exists s,
      phonemize text code (py "espeak") true true true _PUNCTUATION
      = Return s) ->
  exists tr r,
    transcribe_audio_to_ipa path size lang ipa_lang device ctype vad
    = (tr, Return r).
Proof.
  intros Hex Hrec Hit Hg. unfold transcribe_audio_to_ipa, recognise in *.
  fold (selected_compute_type device ctype). rewrite Hex. cbn [negb].
  destruct (WhisperModel _ _ _) as [model|e]; [|discriminate].
  cbn [bind tell lift app]. rewrite Hrec. cbn [bind tell lift app].
  set (rl := str_or lang (str_or (info_language info) [])).
  set (codeM := if opt_bool ipa_lang then _ else _).
  assert (Hcode : exists t code, codeM = (t, Return code)).
  { subst codeM. destruct (opt_bool ipa_lang); eexists _, _; reflexivity. }
  destruct Hcode as (t & code & ->). cbn [bind].
  destruct (for_segment_in_returns it code [] [] Hit (fun text => Hg text code))
    as (tl & [segs parts] & ->).
  cbn [bind]. set (full_text := str_strip (str_join (py " ") parts)).
  destruct (str_bool full_text) eqn:Hf.
  - rewrite _phonemize_text_spoken.
    + destruct (Hg full_text code) as [s ->]. cbn [bind ret].
      eexists _, _. reflexivity.
    + subst full_text. rewrite str_strip_idem. apply str_bool_true, Hf.
  - cbn [bind ret]. eexists _, _. reflexivity.
Qed.
End PipelineFacts.

(** ** The properties of the adapter and the orchestrator *)

Section PipelineTheorems.
Context `{Unicode} `{Platform} `{!Engines}.
Variables (path : Path + str) (size : str) (lang ipa_lang : option str)
  (device : str) (ctype : option str) (vad : bool).

(** C3: in a run that returns, the segments of the result are the records
    built from the raw segments whose trimmed text is not empty, one for
    one and in the order the recognizer yielded them, and the text of the
    result is the trimmed texts of those segments joined by single
    spaces. *)
Theorem segments_kept_in_order (tr : list call) (r : TranscriptionResult) :
  transcribe_audio_to_ipa path size lang ipa_lang device ctype vad
  = (tr, Return r) ->
  exists it info,
    recognise path size lang device ctype vad = Return (it, info)
    /\ Forall2 (built_from (ipa_language r))
         (List.filter spoken (yielded it)) (segments r)
    /\ List.map sr_text (segments r)
       = List.map trimmed (List.filter spoken (yielded it))
    /\ text r
       = str_join (py " ") (List.map trimmed (List.filter spoken (yielded it)))
    /\ text r = str_join (py " ") (List.map sr_text (segments r)).
Proof.
  intros (it & info & parts & tl & tp & _ & Hrec & Hloop & _ & _ & _ & Htext
          & _)%transcribe_audio_to_ipa_Return.
  apply for_segment_in_Return in Hloop as (new & Hsegs & Hbuilt & ->).
  simpl in Hsegs. subst new. exists it, info.
  assert (Htexts : List.map sr_text (segments r)
                   = List.map trimmed (List.filter spoken (yielded it))).
  { clear -Hbuilt. induction Hbuilt as [|raw sr raws srs Hb _ IH]; simpl;
      [reflexivity|].
    destruct Hb as (_ & _ & -> & _). f_equal. exact IH. }
  assert (Hjoin : text r
                  = str_join (py " ")
                      (List.map trimmed (List.filter spoken (yielded it)))).
  { rewrite Htext. simpl. apply str_strip_join.
    apply Forall_forall. intros p Hp%list_elem_of_In.
    apply in_map_iff in Hp as (raw & <- & Hraw).
    apply filter_In in Hraw as [_ Hs]. split.
    - apply str_bool_true. exact Hs.
    - apply str_strip_idem. }
  repeat split; try assumption. rewrite Htexts. exact Hjoin.
Qed.

(** C5: when the audio path does not exist the orchestrator raises
    FileNotFoundError with the message "Audio file not found: <path>" and
    has made no call at all, so none to the recognizer. *)
Theorem missing_audio_raises_before_recognizer :
  Path_exists (Path_ path) = false ->
  transcribe_audio_to_ipa path size lang ipa_lang device ctype vad
  = ([], Raise (Exception FileNotFoundError
                  (py "Audio file not found: " ++ Path_str (Path_ path))
                  None)).
Proof.
  intros Hex. unfold transcribe_audio_to_ipa. rewrite Hex. reflexivity.
Qed.

(** C7: on a text that is empty once trimmed, the adapter returns the empty
    string and makes no call to the engine. *)
Theorem blank_text_skips_engine (text code : str) :
  str_strip text = [] -> _phonemize_text text code = ([], Return []).
Proof. apply _phonemize_text_blank. Qed.

(** C8: when the engine raises a RuntimeError on a call the adapter makes,
    the adapter raises a RuntimeError whose message says that phonemizing
    failed, asks to ensure espeak-ng is installed and names the language
    code, and whose cause is the engine's exception; it returns nothing. *)
Theorem engine_failure_is_wrapped (text code : str) (exc : exn) :
  str_strip text <> [] ->
  phonemize text code (py "espeak") true true true _PUNCTUATION = Raise exc ->
  is_RuntimeError exc = true ->
  exists err,
    snd (_phonemize_text text code) = Raise err
    /\ exn_type err = RuntimeError
    /\ exn_msg err
       = py "Failed to phonemize text. Ensure espeak-ng is installed and the language '"
           ++ code ++ py "' is supported."
    /\ exn_cause err = Some exc.
Proof.
  intros Hs He Hr. rewrite (_phonemize_text_spoken text code Hs), He, Hr.
  eexists. repeat split.
Qed.

(** C4: in a run that returns, the language field is the language override
    if one is given, else the detected language if there is one, else the
    empty string; the ipa_language field is the ipa_language override if
    one is given, else the resolver's answer for the language field; every
    call to the phonemization engine carries the ipa_language field.  A
    language code is never empty: an override or a detected language is
    given when it is a non-empty string.  With no overrides and "en"
    detected, the fields are "en" and "en-us". *)
Theorem language_fields_follow_overrides (tr : list call)
    (r : TranscriptionResult) :
  transcribe_audio_to_ipa path size lang ipa_lang device ctype vad
  = (tr, Return r) ->
  exists it info,
    recognise path size lang device ctype vad = Return (it, info)
    /\ (forall l, lang = Some l -> l <> [] -> language r = l)
    /\ (opt_bool lang = false ->
        forall d, info_language info = Some d -> d <> [] -> language r = d)
    /\ (opt_bool lang = false -> opt_bool (info_language info) = false ->
        language r = [])
    /\ (lang <> Some [] ->
        language r = language_if_given lang (info_language info))
    /\ (forall c, ipa_lang = Some c -> c <> [] -> ipa_language r = c)
    /\ (opt_bool ipa_lang = false ->
        ipa_language r = _resolve_espeak_language (Some (language r)))
    /\ (ipa_lang <> Some [] ->
        ipa_language r = ipa_language_if_given ipa_lang (language r))
    /\ Forall (phonemizes_in (ipa_language r)) tr
    /\ (lang = None -> ipa_lang = None ->
        info_language info = Some (py "en") ->
        language r = py "en" /\ ipa_language r = py "en-us").
Proof.
  intros (it & info & parts & tl & tp & _ & Hrec & Hloop & Hipa & -> & _ & _
          & Hlang & Hcode & _)%transcribe_audio_to_ipa_Return.
  exists it, info. split; [exact Hrec|].
  assert (Htrace : Forall (phonemizes_in (ipa_language r))
            (Call_WhisperModel size device (selected_compute_type device ctype)
             :: Call_transcribe (Path_str (Path_ path)) lang 1 1 vad float_0_0
             :: (if opt_bool ipa_lang then []
                 else [Call_resolve (Some (language r))]) ++ tl ++ tp)).
  { constructor; [exact I|]. constructor; [exact I|].
    apply Forall_app. split; [destruct (opt_bool ipa_lang); repeat constructor|].
    apply Forall_app. split.
    - pose proof (for_segment_in_trace it (ipa_language r) [] []) as Ht.
      rewrite Hloop in Ht. eapply Forall_impl; [exact Ht|].
      apply phonemize_call_in_phonemizes_in.
    - destruct (str_bool (text r)).
      + pose proof (_phonemize_text_trace (text r) (ipa_language r)) as Ht.
        rewrite Hipa in Ht. eapply Forall_impl; [exact Ht|].
        apply phonemize_call_in_phonemizes_in.
      + injection Hipa as <- _. constructor. }
  clear Hloop Hipa. repeat apply conj.
  - intros l -> Hl%str_bool_true. rewrite Hlang. simpl. rewrite Hl.
    reflexivity.
  - intros Hn d Hd Hne%str_bool_true. rewrite Hlang, Hd.
    destruct lang as [[|a l]|]; simpl in *; try discriminate;
      rewrite Hne; reflexivity.
  - intros Hn Hd. rewrite Hlang.
    destruct lang as [[|a l]|]; simpl in *; try discriminate;
      destruct (info_language info) as [[|b d]|]; simpl in *;
      try discriminate; reflexivity.
  - intros Hn. rewrite Hlang. destruct lang as [[|a l]|]; simpl; try congruence.
    destruct (info_language info) as [[|b d]|]; reflexivity.
  - intros c -> Hc%str_bool_true. rewrite Hcode. simpl. rewrite Hc.
    reflexivity.
  - intros Hn. rewrite Hcode, Hn. reflexivity.
  - intros Hn. rewrite Hcode.
    destruct ipa_lang as [[|a c]|]; simpl; congruence.
  - exact Htrace.
  - intros Hl -> Hd. rewrite Hcode, Hlang, Hl, Hd.
    cbn [opt_bool str_or str_bool py]. split; [reflexivity|].
    rewrite resolve_ascii by reflexivity. vm_compute. reflexivity.
Qed.
End PipelineTheorems.

(** C6: in a run that returns, the ipa field is what the adapter, hence the
    engine, gives for the text field and the ipa_language field when the
    text is not empty, and is the empty string when the text is empty; and
    there is a run whose ipa field is neither the concatenation nor the
    space-joined sequence of its segments' ipa values. *)
Theorem full_ipa_phonemizes_full_text :
  (forall (U : Unicode) (P : Platform) (E : Engines) (path : Path + str)
          (size : str) (lang ipa_lang : option str) (device : str)
          (ctype : option str) (vad : bool) (tr : list call)
          (r : TranscriptionResult),
      transcribe_audio_to_ipa path size lang ipa_lang device ctype vad
      = (tr, Return r) ->
      (text r <> [] ->
       snd (_phonemize_text (text r) (ipa_language r)) = Return (ipa r)
       /\ phonemize (text r) (ipa_language r) (py "espeak") true true true
            _PUNCTUATION = Return (ipa r))
      /\ (text r = [] -> ipa r = []))
  /\ (exists (U : Unicode) (P : Platform) (E : Engines) (path : Path + str)
             (size : str) (lang ipa_lang : option str) (device : str)
             (ctype : option str) (vad : bool) (tr : list call)
             (r : TranscriptionResult),
         transcribe_audio_to_ipa path size lang ipa_lang device ctype vad
         = (tr, Return r)
         /\ ipa r <> concat (List.map sr_ipa (segments r))
         /\ ipa r <> str_join (py " ") (List.map sr_ipa (segments r))).
Proof.
  split.
  - intros U P E path size lang ipa_lang device ctype vad tr r
      (it & info & parts & tl & tp & _ & _ & _ & Hipa & _ & _ & Htext
       & _)%transcribe_audio_to_ipa_Return.
    split.
    + intros Hne. pose proof Hne as Hb%str_bool_true. rewrite Hb in Hipa.
      split; [rewrite Hipa; reflexivity|].
      rewrite _phonemize_text_spoken in Hipa
        by (rewrite Htext, str_strip_idem, <- Htext; exact Hne).
      destruct (phonemize _ _ _ _ _ _ _) as [s|exc]; [congruence|].
      destruct (is_RuntimeError exc); discriminate.
    + intros He. rewrite He in Hipa. simpl in Hipa. unfold ret in Hipa.
      congruence.
  - exists ascii_unicode, demo_platform, (demo_engines demo_hi_there slashes),
      (inr (py "audio.wav")), (py "small"), None, None, (py "cpu"), None, true.
    eexists _, _. split; [reflexivity|]. split; vm_compute; discriminate.
Qed.

(** ** The theorems on concrete runs *)

Lemma resolve_table_and_default_witness :
  _ESPEAK_LANG_MAP !! py "fr" = Some (py "fr-fr")
  /\ @_resolve_espeak_language ascii_unicode (Some (py "fr")) = py "fr-fr".
Proof.
  split; [vm_compute; reflexivity|].
  apply (proj1 (@resolve_table_and_default ascii_unicode)).
  vm_compute. reflexivity.
Defined.

Lemma resolve_normalises_then_falls_back_witness :
  py "DE_at" <> []
  /\ @_resolve_espeak_language ascii_unicode (Some (py "DE_at")) = py "de".
Proof.
  split; [discriminate|].
  destruct (proj1 (@resolve_normalises_then_falls_back ascii_unicode)
              (py "DE_at") (py "de-at")) as (_ & _ & Hn);
    [discriminate | vm_compute; reflexivity |].
  destruct Hn as (_ & _ & Hbase & _); [discriminate|].
  apply (Hbase (py "de") (py "at") (py "de")).
  - vm_compute. reflexivity.
  - reflexivity.
  - vm_compute. intros [E|[E|[]]]; discriminate E.
  - vm_compute. reflexivity.
Defined.

(** C2 as it is worded fails on a hint of white space: the normalised code
    is empty and matches nothing, yet the resolver returns "en-us" and not
    the empty normalised code. *)
Lemma resolve_blank_hint_counterexample :
  py " " <> []
  /\ @_normalise_lang_code ascii_unicode (Some (py " ")) = Some []
  /\ _ESPEAK_LANG_MAP !! ([] : str) = None
  /\ @resolve_without_empty_guard ascii_unicode (py " ") = []
  /\ @_resolve_espeak_language ascii_unicode (Some (py " ")) = py "en-us"
  /\ @_resolve_espeak_language ascii_unicode (Some (py " "))
     <> @resolve_without_empty_guard ascii_unicode (py " ").
Proof.
  repeat apply conj; try (vm_compute; reflexivity); vm_compute; discriminate.
Qed.

Lemma segments_kept_in_order_witness :
  exists tr r,
    demo_run (demo_engines demo_hi_there slashes) "audio.wav" None None
    = (tr, Return r)
    /\ List.map sr_text (segments r) = [py "Hi"; py "there"]
    /\ text r = py "Hi there".
Proof.
  destruct (demo_run (demo_engines demo_hi_there slashes) "audio.wav" None None)
    as [tr [r|e]] eqn:Hrun; [|vm_compute in Hrun; discriminate Hrun].
  exists tr, r. split; [reflexivity|].
  destruct (segments_kept_in_order _ _ _ _ _ _ _ tr r Hrun)
    as (it & info & Hrec & _ & Hsegs & Htext & _).
  injection Hrec as <- _. rewrite Hsegs, Htext. split; reflexivity.
Defined.

Lemma missing_audio_raises_before_recognizer_witness :
  @Path_exists demo_platform (py "missing.wav") = false
  /\ demo_run (demo_engines demo_hello slashes) "missing.wav" None None
     = ([], Raise (Exception FileNotFoundError
                     (py "Audio file not found: missing.wav") None)).
Proof.
  split; [reflexivity|].
  apply (@missing_audio_raises_before_recognizer ascii_unicode demo_platform
           (demo_engines demo_hello slashes) (inr (py "missing.wav"))).
  reflexivity.
Defined.

Lemma blank_text_skips_engine_witness :
  str_strip (py "  ") = []
  /\ @_phonemize_text demo_platform (demo_engines demo_hello no_espeak)
       (py "  ") (py "en-us") = ([], Return []).
Proof.
  split; [reflexivity|]. apply blank_text_skips_engine. reflexivity.
Defined.

Lemma engine_failure_is_wrapped_witness :
  exists err,
    snd (@_phonemize_text demo_platform (demo_engines demo_hello no_espeak)
           (py "Hello") (py "xx")) = Raise err
    /\ exn_type err = RuntimeError
    /\ exn_msg err
       = py "Failed to phonemize text. Ensure espeak-ng is installed and the language 'xx' is supported."
    /\ exn_cause err
       = Some (Exception RuntimeError
                 (py "espeak not installed on your system") None).
Proof.
  apply (@engine_failure_is_wrapped demo_platform
           (demo_engines demo_hello no_espeak) (py "Hello") (py "xx")).
  - vm_compute. discriminate.
  - reflexivity.
  - reflexivity.
Defined.

Lemma language_fields_follow_overrides_witness :
  exists tr r,
    demo_run (demo_engines demo_hello slashes) "audio.wav" None None
    = (tr, Return r)
    /\ language r = py "en" /\ ipa_language r = py "en-us".
Proof.
  destruct (demo_run (demo_engines demo_hello slashes) "audio.wav" None None)
    as [tr [r|e]] eqn:Hrun; [|vm_compute in Hrun; discriminate Hrun].
  exists tr, r. split; [reflexivity|].
  destruct (language_fields_follow_overrides _ _ _ _ _ _ _ tr r Hrun)
    as (it & info & Hrec & _ & _ & _ & _ & _ & _ & _ & _ & Hen).
  injection Hrec as _ <-. apply Hen; reflexivity.
Defined.

(** An empty string counts as no override: given the empty string as language
    and as ipa_language, with "en" detected, the result has language "en"
    and ipa_language "en-us". *)
Lemma empty_overrides_count_as_absent :
  exists tr r,
    demo_run (demo_engines demo_hello slashes) "audio.wav" (Some []) (Some [])
    = (tr, Return r)
    /\ @info_language demo_platform (snd demo_hello) = Some (py "en")
    /\ language r = py "en"
    /\ ipa_language r = py "en-us".
Proof.
  eexists _, _. split; [reflexivity|].
  repeat apply conj; vm_compute; reflexivity.
Qed.

Lemma full_ipa_phonemizes_full_text_witness :
  exists tr r,
    demo_run (demo_engines demo_hi_there slashes) "audio.wav" None None
    = (tr, Return r)
    /\ text r = py "Hi there"
    /\ slashes (py "Hi there") (py "en-us") = Return (ipa r).
Proof.
  destruct (demo_run (demo_engines demo_hi_there slashes) "audio.wav" None None)
    as [tr [r|e]] eqn:Hrun; [|vm_compute in Hrun; discriminate Hrun].
  exists tr, r. split; [reflexivity|].
  destruct (proj1 full_ipa_phonemizes_full_text _ _ _ _ _ _ _ _ _ _ tr r Hrun)
    as [Hne _].
  vm_compute in Hrun. injection Hrun as <- <-.
  split; [reflexivity|].
  destruct Hne as [_ Hg]; [discriminate|]. exact Hg.
Defined.

(** The structured form has the documented keys, in the order of the fields,
    the path as a string and the segments in their order. *)
Lemma TranscriptionResult_to_dict_items `{Platform} (self : TranscriptionResult) :
  TranscriptionResult_to_dict self
  = PyDict
      [ (py "audio_path", PyStr (Path_str (audio_path self)));
        (py "text", PyStr (text self));
        (py "ipa", PyStr (ipa self));
        (py "segments", PyList (List.map SegmentResult_to_dict (segments self)));
        (py "language", PyStr (language self));
        (py "language_confidence", py_optional (language_confidence self));
        (py "duration", py_optional (duration self));
        (py "model_size", PyStr (model_size self));
        (py "ipa_language", PyStr (ipa_language self)) ].
Proof. reflexivity. Qed.

(** The end-to-end scenario: "Hello" and an empty segment, "en" detected
    with confidence 0.95 over 2.0 seconds, no overrides. *)
Example end_to_end_hello :
  exists tr r,
    demo_run (demo_engines demo_hello slashes) "audio.wav" None None
    = (tr, Return r)
    /\ List.map sr_text (segments r) = [py "Hello"]
    /\ language r = py "en" /\ ipa_language r = py "en-us"
    /\ language_confidence r = Some (95, 100)%Z
    /\ duration r = Some (20, 10)%Z
    /\ text r = py "Hello"
    /\ slashes (py "Hello") (py "en-us") = Return (ipa r).
Proof.
  eexists _, _. split; [reflexivity|].
  repeat apply conj; vm_compute; reflexivity.
Qed.

(** ** More about the resolver *)

Lemma ascii_lower_idem (c : N) : ascii_lower (ascii_lower c) = ascii_lower c.
Proof.
  unfold ascii_lower.
  destruct ((65 <=? c) && (c <=? 90)) eqn:E; [|rewrite E; reflexivity].
  apply andb_prop in E as [E1%N.leb_le E2%N.leb_le].
  destruct (N.leb_spec (c + 32) 90); [lia|].
  rewrite andb_false_r. reflexivity.
Qed.

Lemma ascii_lower_is_ascii (c : N) :
  is_ascii c = true -> is_ascii (ascii_lower c) = true.
Proof.
  unfold is_ascii, ascii_lower. intros Hc%N.ltb_lt.
  destruct ((65 <=? c) && (c <=? 90)) eqn:E; apply N.ltb_lt; [|exact Hc].
  apply andb_prop in E as [_ E2%N.leb_le]. lia.
Qed.

(** [strip] keeps a property that every code point of the string has. *)
Lemma str_strip_Forall (P : N -> Prop) (s : str) :
  Forall P s -> Forall P (str_strip s).
Proof.
  intros Hs. unfold str_strip.
  destruct (str_lstrip_split s) as (w & E & _).
  destruct (str_rstrip_split (str_lstrip s)) as (w' & E' & _).
  rewrite E, E' in Hs.
  apply Forall_app in Hs as [_ Hs]. apply Forall_app in Hs as [Hs _].
  exact Hs.
Qed.

Lemma head_ok_map (f : N -> N) (s : str) :
  (forall c, isspace c = false -> isspace (f c) = false) ->
  head_ok s -> head_ok (List.map f s).
Proof. intros Hf. destruct s; simpl; auto. Qed.

Lemma replace_keeps_nonspace (c : N) :
  isspace c = false ->
  isspace (if c =? underscore then hyphen else c) = false.
Proof. intros Hc. destruct (c =? underscore); [reflexivity | exact Hc]. Qed.

Section MoreResolverFacts.
Context `{Unicode}.

(** The normal form of an ASCII code: ASCII, lower case, no underscore, no
    white space at either end. *)
Lemma normal_form_ascii (s : str) :
  forallb is_ascii s = true ->
  let n := str_replace underscore hyphen (str_strip (str_lower s)) in
  forallb is_ascii n = true
  /\ List.map ascii_lower n = n
  /\ str_strip n = n
  /\ str_replace underscore hyphen n = n.
Proof.
  intros Ha n. subst n. rewrite (str_lower_ascii s Ha).
  set (x := str_strip (List.map ascii_lower s)).
  assert (Hx : Forall (fun c => is_ascii c = true /\ ascii_lower c = c) x).
  { apply str_strip_Forall. apply Forall_forall. intros c Hc%list_elem_of_In.
    apply in_map_iff in Hc as (c0 & <- & Hc0).
    rewrite forallb_forall in Ha. split.
    - apply ascii_lower_is_ascii, Ha, Hc0.
    - apply ascii_lower_idem. }
  assert (Hn : Forall (fun c => is_ascii c = true /\ ascii_lower c = c
                                /\ (c =? underscore) = false)
                 (str_replace underscore hyphen x)).
  { unfold str_replace. apply Forall_forall. intros c Hc%list_elem_of_In.
    apply in_map_iff in Hc as (c0 & <- & Hc0).
    rewrite Forall_forall in Hx. specialize (Hx c0).
    destruct Hx as [Ha0 Hl0]; [apply list_elem_of_In, Hc0|].
    destruct (N.eqb_spec c0 underscore) as [->|Hne].
    - repeat split; reflexivity.
    - repeat split; try assumption. apply N.eqb_neq, Hne. }
  rewrite Forall_forall in Hn.
  repeat apply conj.
  - apply forallb_forall. intros c Hc. apply Hn, list_elem_of_In, Hc.
  - apply map_fix. intros c Hc. apply Hn, list_elem_of_In, Hc.
  - apply str_strip_fix.
    + apply head_ok_map; [apply replace_keeps_nonspace|].
      apply str_strip_head_ok.
    + unfold last_ok, str_replace. rewrite <- map_rev.
      apply head_ok_map; [apply replace_keeps_nonspace|].
      apply str_strip_last_ok.
  - apply map_fix. intros c Hc.
    destruct (Hn c) as (_ & _ & ->); [apply list_elem_of_In, Hc|]. reflexivity.
Qed.

Lemma normal_form_fix (s : str) :
  forallb is_ascii s = true ->
  _normalise_lang_code (_normalise_lang_code (Some s))
  = _normalise_lang_code (Some s).
Proof.
  intros Ha. destruct (normal_form_ascii s Ha) as (Hn & Hl & Hs & Hr).
  cbn [_normalise_lang_code]. f_equal.
  rewrite (str_lower_ascii _ Hn), Hl, Hs. exact Hr.
Qed.

(** X2: normalising an ASCII code a second time changes nothing, and no
    code stays no code. *)
Theorem normalise_idempotent (code : option str) :
  match code with Some s => forallb is_ascii s = true | None => True end ->
  _normalise_lang_code (_normalise_lang_code code) = _normalise_lang_code code.
Proof.
  destruct code as [s|]; [apply normal_form_fix | reflexivity].
Qed.

(** The resolver's answer is the default, a value of the table, or the
    non-empty normal form of the hint. *)
Lemma resolve_cases (language_hint : option str) :
  _resolve_espeak_language language_hint = py "en-us"
  \/ (exists tag, _ESPEAK_LANG_MAP !! tag
                  = Some (_resolve_espeak_language language_hint))
  \/ (exists n, _normalise_lang_code language_hint = Some n /\ n <> []
                /\ _resolve_espeak_language language_hint = n).
Proof.
  unfold _resolve_espeak_language.
  destruct (opt_bool language_hint) eqn:Hh; cbn [negb]; [|left; reflexivity].
  destruct language_hint as [s|]; [|discriminate].
  cbn [_normalise_lang_code].
  set (n := str_replace underscore hyphen (str_strip (str_lower s))).
  cbn [opt_bool]. destruct (str_bool n) eqn:Hn; cbn [negb]; [|left; reflexivity].
  change (default [] (Some n)) with n.
  destruct (_ESPEAK_LANG_MAP !! n) as [code|] eqn:Hl.
  { right. left. exists n. exact Hl. }
  assert (Hpass : exists m, Some n = Some m /\ m <> [] /\ n = m).
  { exists n. repeat split. apply str_bool_true, Hn. }
  destruct (str_contains hyphen n); [|right; right; exact Hpass].
  destruct (_ESPEAK_LANG_MAP !! hd [] (str_split1 hyphen n)) as [code|] eqn:Hb.
  - right. left. eexists. exact Hb.
  - right. right. exact Hpass.
Qed.

Lemma lang_map_values_plain (tag code : str) :
  _ESPEAK_LANG_MAP !! tag = Some code -> plain_tag code = true.
Proof.
  intros Hl. apply elem_of_list_to_map_2, list_elem_of_In in Hl.
  assert (Hall : forallb (fun kv => plain_tag (snd kv))
                   _ESPEAK_LANG_MAP_items = true) by (vm_compute; reflexivity).
  rewrite forallb_forall in Hall. exact (Hall _ Hl).
Qed.

Lemma resolve_nonempty (language_hint : option str) :
  _resolve_espeak_language language_hint <> [].
Proof.
  destruct (resolve_cases language_hint) as [E|[[tag Hl]|(n & _ & Hn & E)]].
  - rewrite E. discriminate.
  - apply lang_map_values_plain in Hl. unfold plain_tag in Hl.
    apply andb_prop in Hl as [Hl _]. apply str_bool_true, Hl.
  - rewrite E. exact Hn.
Qed.

(** X1: whatever the hint, absent, empty, blank or unknown, the resolver
    never returns the empty string. *)
Theorem resolve_never_empty (language_hint : option str) :
  _resolve_espeak_language language_hint <> [].
Proof. apply resolve_nonempty. Qed.

(** X3: on an ASCII hint the resolver gives the same answer for the hint and
    for its normal form, so case, outer white space and the choice between
    underscore and hyphen do not matter. *)
Theorem resolve_through_normal_form (hint : str) :
  forallb is_ascii hint = true ->
  _resolve_espeak_language (Some hint)
  = _resolve_espeak_language (_normalise_lang_code (Some hint)).
Proof.
  intros Ha. destruct (normal_form_ascii hint Ha) as (Hn & Hl & Hs & Hr).
  cbn [_normalise_lang_code].
  set (n := str_replace underscore hyphen (str_strip (str_lower hint))) in *.
  assert (Hnn : str_replace underscore hyphen (str_strip (str_lower n)) = n)
    by (rewrite (str_lower_ascii _ Hn), Hl, Hs; exact Hr).
  destruct hint as [|c hint].
  { assert (E : n = []).
    { subst n. rewrite (str_lower_ascii [] eq_refl). reflexivity. }
    rewrite E. reflexivity. }
  destruct n as [|d n'] eqn:En.
  - unfold _resolve_espeak_language at 1. cbn [opt_bool str_bool negb].
    cbn [_normalise_lang_code]. fold n. rewrite En. reflexivity.
  - rewrite !resolve_unfold; try discriminate.
    + unfold resolve_without_empty_guard. fold n. rewrite En, Hnn.
      reflexivity.
    + rewrite Hnn. discriminate.
    + fold n. rewrite En. discriminate.
Qed.

(** X4: on an ASCII hint, or none, the resolver's answer is in normal form:
    normalising it gives it back. *)
Theorem resolve_gives_normal_form (language_hint : option str) :
  match language_hint with
  | Some s => forallb is_ascii s = true
  | None => True
  end ->
  _normalise_lang_code (Some (_resolve_espeak_language language_hint))
  = Some (_resolve_espeak_language language_hint).
Proof.
  intros Ha.
  destruct (resolve_cases language_hint) as [E|[[tag Hl]|(n & Hn & _ & E)]].
  - rewrite E. cbn [_normalise_lang_code]. f_equal.
    apply plain_tag_normal. reflexivity.
  - cbn [_normalise_lang_code]. f_equal.
    apply plain_tag_normal, (lang_map_values_plain _ _ Hl).
  - rewrite E. destruct language_hint as [s|]; [|discriminate].
    rewrite <- Hn. apply normal_form_fix, Ha.
Qed.
End MoreResolverFacts.

(** ** More about the adapter, the loop and the orchestrator *)

Section MorePipelineFacts.
Context `{Unicode} `{Platform} `{!Engines}.

Lemma bind_Return_snd {A B} (t : list call) (a : A) (k : A -> M B) :
  snd (bind (t, Return a) k) = snd (k a).
Proof. cbn [bind]. destruct (k a). reflexivity. Qed.

(** A value from the adapter on a text with content is the engine's value,
    after exactly one call. *)
Lemma _phonemize_text_Return (text code v : str) (t : list call) :
  str_strip text <> [] ->
  _phonemize_text text code = (t, Return v) ->
  t = [phonemize_call text code] /\ engine text code = Return v.
Proof.
  intros Hs. rewrite (_phonemize_text_spoken text code Hs).
  unfold engine, phonemize_call.
  destruct (phonemize _ _ _ _ _ _ _) as [s|exc].
  - intros [= <- <-]. split; reflexivity.
  - destruct (is_RuntimeError exc); intros [= _ ?].
Qed.

Lemma trimmed_spoken (segment : Segment) :
  spoken segment = true ->
  trimmed segment <> [] /\ str_strip (trimmed segment) = trimmed segment.
Proof.
  intros Hs. split; [apply str_bool_true, Hs | apply str_strip_idem].
Qed.

(** The calls of a loop that returns: one engine call per spoken segment, in
    order, each of which returned a value. *)
Lemma for_segment_in_Return_calls (it : seg_iter) (code : str)
    (segs : list SegmentResult) (parts : list str) (tr : list call)
    (res : list SegmentResult * list str) :
  for_segment_in it code segs parts = (tr, Return res) ->
  tr = List.map (fun segment => phonemize_call (trimmed segment) code)
         (List.filter spoken (yielded it))
  /\ Forall (fun segment => exists v, engine (trimmed segment) code = Return v)
       (List.filter spoken (yielded it))
  /\ raised it = None.
Proof.
  revert segs parts tr.
  induction it as [|segment rest IH|e]; intros segs parts tr; simpl.
  - intros [= <- _]. repeat split. constructor.
  - change (str_bool (str_strip (raw_text segment))) with (spoken segment).
    destruct (spoken segment) eqn:Hs; cbn [negb]; [|apply IH].
    intros (t1 & v & t2 & Hp & Hrest & ->)%bind_Return.
    apply trimmed_spoken in Hs as [Hne Hfix].
    apply _phonemize_text_Return in Hp as [-> Hv];
      [|unfold trimmed in *; rewrite Hfix; exact Hne].
    apply IH in Hrest as (-> & Hall & Hr).
    repeat split; [|exact Hr]. constructor; [|exact Hall]. exists v. exact Hv.
  - discriminate.
Qed.

(** A loop over an iteration that raises, with an engine that does not fail
    on the code, raises the iteration's exception. *)
Lemma for_segment_in_raised (it : seg_iter) (code : str)
    (segs : list SegmentResult) (parts : list str) (e : exn) :
  raised it = Some e ->
  (forall text, exists v, engine text code = Return v) ->
  snd (for_segment_in it code segs parts) = Raise e.
Proof.
  intros Hit Hg. revert segs parts.
  induction it as [|segment rest IH|e0]; intros segs parts; simpl in *.
  - discriminate.
  - destruct (str_bool (str_strip (raw_text segment))) eqn:Hs; cbn [negb];
      [|apply IH, Hit].
    rewrite _phonemize_text_spoken
      by (rewrite str_strip_idem; apply str_bool_true; exact Hs).
    destruct (Hg (str_strip (raw_text segment))) as [v Hv].
    unfold engine in Hv. rewrite Hv, bind_Return_snd. apply IH, Hit.
  - injection Hit as ->. reflexivity.
Qed.
End MorePipelineFacts.

Section MorePipelineLemmas.
Context `{Unicode} `{Platform} `{!Engines}.

(** A loop over an iteration that completes and has no spoken segment
    returns its accumulators and calls nothing. *)
Lemma for_segment_in_silent (it : seg_iter) (code : str)
    (segs : list SegmentResult) (parts : list str) :
  raised it = None ->
  List.filter spoken (yielded it) = [] ->
  for_segment_in it code segs parts = ([], Return (segs, parts)).
Proof.
  revert segs parts. induction it as [|segment rest IH|e]; intros segs parts;
    simpl; [reflexivity| |discriminate].
  change (str_bool (str_strip (raw_text segment))) with (spoken segment).
  destruct (spoken segment); [discriminate|]. cbn [negb]. apply IH.
Qed.

(** In the records a returning loop builds, the ipa of each record is the
    engine's value for the text of the record. *)
Lemma built_from_engine (code : str) (raws : list Segment)
    (srs : list SegmentResult) :
  Forall (fun raw => spoken raw = true) raws ->
  Forall2 (built_from code) raws srs ->
  Forall (fun sr => sr_text sr <> [] /\ str_strip (sr_text sr) = sr_text sr
                    /\ engine (sr_text sr) code = Return (sr_ipa sr)) srs.
Proof.
  intros Hsp Hb. induction Hb as [|raw sr raws srs Hb _ IH]; [constructor|].
  inversion Hsp as [|? ? Hraw Hraws]; subst.
  constructor; [|apply IH, Hraws].
  destruct Hb as (_ & _ & Ht & _ & _ & Hipa).
  apply trimmed_spoken in Hraw as [Hne Hfix]. rewrite <- Ht in Hne, Hfix.
  repeat split; try assumption.
  destruct (_phonemize_text (sr_text sr) code) as [t o] eqn:Hp.
  simpl in Hipa. subst o.
  apply _phonemize_text_Return in Hp as [_ Hv]; [exact Hv|].
  rewrite Hfix. exact Hne.
Qed.

Lemma filter_spoken_Forall (raws : list Segment) :
  Forall (fun raw => spoken raw = true) (List.filter spoken raws).
Proof.
  apply Forall_forall. intros raw Hin%list_elem_of_In.
  apply filter_In in Hin. apply Hin.
Qed.

(** The text of a result is stripped, and empty exactly when there is no
    part. *)
Lemma joined_parts_empty (parts : list str) :
  Forall (fun p => p <> []) parts ->
  (str_join (py " ") parts = [] <-> parts = []).
Proof.
  intros Hp. split; [|intros ->; reflexivity].
  destruct parts as [|p ps]; [reflexivity|]. intros E. exfalso.
  inversion Hp as [|? ? Hne _]; subst.
  exact (str_join_nonempty (py " ") p ps Hne E).
Qed.
End MorePipelineLemmas.

(** ** More properties of the adapter and the orchestrator *)

Section MorePipelineTheorems.
Context `{Unicode} `{Platform} `{!Engines}.
Variables (path : Path + str) (size : str) (lang ipa_lang : option str)
  (device : str) (ctype : option str) (vad : bool).

(** X5: an engine exception that is not a RuntimeError leaves the adapter as
    it is, unwrapped, after the one call that raised it. *)
Theorem other_engine_failure_propagates (text code : str) (exc : exn) :
  str_strip text <> [] ->
  engine text code = Raise exc ->
  is_RuntimeError exc = false ->
  _phonemize_text text code = ([phonemize_call text code], Raise exc).
Proof.
  intros Hs He Hr. rewrite (_phonemize_text_spoken text code Hs).
  unfold engine in He. rewrite He, Hr. reflexivity.
Qed.

(** X6: when loading the model or starting the transcription raises, the
    run raises that same exception, and the only calls made are to the
    recognizer: nothing is resolved or phonemized. *)
Theorem recognizer_failure_propagates (e : exn) :
  Path_exists (Path_ path) = true ->
  recognise path size lang device ctype vad = Raise e ->
  snd (transcribe_audio_to_ipa path size lang ipa_lang device ctype vad)
  = Raise e
  /\ Forall is_recognizer_call
       (fst (transcribe_audio_to_ipa path size lang ipa_lang device ctype vad)).
Proof.
  intros Hex Hrec. unfold transcribe_audio_to_ipa, recognise in *.
  fold (selected_compute_type device ctype). rewrite Hex. cbn [negb].
  destruct (WhisperModel _ _ _) as [model|e0].
  - cbn [bind tell lift app]. rewrite Hrec. cbn [bind tell lift app fst snd].
    split; [reflexivity|]. repeat constructor.
  - injection Hrec as ->. cbn [bind tell lift app fst snd].
    split; [reflexivity|]. repeat constructor.
Qed.

(** X7: when the segment iteration raises and the engine does not fail, the
    run raises the iteration's exception as it is. *)
Theorem iteration_failure_propagates (it : seg_iter)
    (info : TranscriptionInfo) (e : exn) :
  Path_exists (Path_ path) = true ->
  recognise path size lang device ctype vad = Return (it, info) ->
  raised it = Some e ->
  (forall text, exists v,
      engine text (selected_ipa_code lang ipa_lang info) = Return v) ->
  snd (transcribe_audio_to_ipa path size lang ipa_lang device ctype vad)
  = Raise e.
Proof.
  intros Hex Hrec Hit Hg. unfold transcribe_audio_to_ipa, recognise in *.
  fold (selected_compute_type device ctype). rewrite Hex. cbn [negb].
  destruct (WhisperModel _ _ _) as [model|e0]; [|discriminate].
  cbn [bind tell lift app]. rewrite Hrec. cbn [bind tell lift app].
  unfold selected_ipa_code in Hg.
  set (rl := str_or lang (str_or (info_language info) [])) in *.
  destruct (opt_bool ipa_lang); cbn [bind tell ret app].
  - pose proof (for_segment_in_raised it _ [] [] e Hit Hg) as Hl.
    destruct (for_segment_in it _ [] []) as [tl [res|e1]]; simpl in Hl;
      [discriminate|]. injection Hl as ->. reflexivity.
  - pose proof (for_segment_in_raised it _ [] [] e Hit Hg) as Hl.
    destruct (for_segment_in it _ [] []) as [tl [res|e1]]; simpl in Hl;
      [discriminate|]. injection Hl as ->. reflexivity.
Qed.
(** What a returning run phonemizes with is the code selected from the
    overrides and the detected language. *)
Lemma returned_ipa_language (tr : list call) (r : TranscriptionResult)
    (it : seg_iter) (info : TranscriptionInfo) :
  transcribe_audio_to_ipa path size lang ipa_lang device ctype vad
  = (tr, Return r) ->
  recognise path size lang device ctype vad = Return (it, info) ->
  ipa_language r = selected_ipa_code lang ipa_lang info.
Proof.
  intros (it' & info' & parts & tl & tp & _ & Hrec & _ & _ & _ & _ & _
          & Hlang & Hcode & _)%transcribe_audio_to_ipa_Return Hrec'.
  rewrite Hrec in Hrec'. injection Hrec' as -> ->.
  rewrite Hcode, Hlang. reflexivity.
Qed.

(** X8: no partial result: when the engine fails on the trimmed text of some
    spoken segment, the run does not return a result, it raises. *)
Theorem engine_failure_aborts_run (it : seg_iter) (info : TranscriptionInfo)
    (segment : Segment) (e : exn) :
  recognise path size lang device ctype vad = Return (it, info) ->
  In segment (yielded it) -> spoken segment = true ->
  engine (trimmed segment) (selected_ipa_code lang ipa_lang info) = Raise e ->
  exists e',
    snd (transcribe_audio_to_ipa path size lang ipa_lang device ctype vad)
    = Raise e'.
Proof.
  intros Hrec Hin Hs He.
  destruct (transcribe_audio_to_ipa path size lang ipa_lang device ctype vad)
    as [tr [r|e']] eqn:Hrun; [exfalso | exists e'; reflexivity].
  pose proof (returned_ipa_language tr r it info Hrun Hrec) as Hcode.
  apply transcribe_audio_to_ipa_Return in Hrun
    as (it' & info' & parts & tl & tp & _ & Hrec' & Hloop & _).
  rewrite Hrec in Hrec'. injection Hrec' as <- <-.
  apply for_segment_in_Return_calls in Hloop as (_ & Hall & _).
  rewrite Forall_forall in Hall.
  destruct (Hall segment) as [v Hv].
  - apply list_elem_of_In, filter_In. split; assumption.
  - rewrite Hcode in Hv. congruence.
Qed.

(** X9: the calls of a run that returns, in order: the model is loaded, the
    transcription started, the resolver consulted unless a non-empty
    ipa_language override is given, the engine called once for the text of
    each segment of the result, and once more for the full text unless it
    is empty. *)
Theorem returned_run_calls (tr : list call) (r : TranscriptionResult) :
  transcribe_audio_to_ipa path size lang ipa_lang device ctype vad
  = (tr, Return r) ->
  tr = Call_WhisperModel size device (selected_compute_type device ctype)
       :: Call_transcribe (Path_str (Path_ path)) lang 1 1 vad float_0_0
       :: (if opt_bool ipa_lang then [] else [Call_resolve (Some (language r))])
       ++ List.map (fun sr => phonemize_call (sr_text sr) (ipa_language r))
            (segments r)
       ++ (if str_bool (text r) then [phonemize_call (text r) (ipa_language r)]
           else []).
Proof.
  intros (it & info & parts & tl & tp & _ & _ & Hloop & Hipa & -> & _ & Htext
          & _)%transcribe_audio_to_ipa_Return.
  pose proof Hloop as (-> & _ & _)%for_segment_in_Return_calls.
  apply for_segment_in_Return in Hloop as (new & Hsegs & Hbuilt & _).
  simpl in Hsegs. subst new.
  assert (Hmap : List.map (fun segment =>
                             phonemize_call (trimmed segment) (ipa_language r))
                   (List.filter spoken (yielded it))
                 = List.map (fun sr => phonemize_call (sr_text sr) (ipa_language r))
                     (segments r)).
  { clear -Hbuilt. induction Hbuilt as [|raw sr raws srs Hb _ IH]; simpl;
      [reflexivity|].
    destruct Hb as (_ & _ & -> & _). f_equal. exact IH. }
  rewrite Hmap. do 4 f_equal.
  destruct (str_bool (text r)) eqn:Hb.
  - apply _phonemize_text_Return in Hipa as [-> _]; [reflexivity|].
    rewrite Htext, str_strip_idem, <- Htext. apply str_bool_true, Hb.
  - injection Hipa as <- _. reflexivity.
Qed.

(** X10: in a result, the text of every segment is non-empty and trimmed, and
    its ipa is the value the engine gave for that text in the ipa_language
    of the result. *)
Theorem segment_ipa_is_engine_value (tr : list call) (r : TranscriptionResult) :
  transcribe_audio_to_ipa path size lang ipa_lang device ctype vad
  = (tr, Return r) ->
  Forall (fun sr => sr_text sr <> [] /\ str_strip (sr_text sr) = sr_text sr
                    /\ engine (sr_text sr) (ipa_language r)
                       = Return (sr_ipa sr))
    (segments r).
Proof.
  intros (it & info & parts & tl & tp & _ & _ & Hloop
          & _)%transcribe_audio_to_ipa_Return.
  apply for_segment_in_Return in Hloop as (new & Hsegs & Hbuilt & _).
  simpl in Hsegs. subst new.
  eapply built_from_engine; [apply filter_spoken_Forall | exact Hbuilt].
Qed.

(** X11: a result carries the path the run was given, as a Path, the model
    size it was given, and the language probability and the duration the
    recognizer reported, absent when the recognizer reported none. *)
Theorem result_metadata (tr : list call) (r : TranscriptionResult) :
  transcribe_audio_to_ipa path size lang ipa_lang device ctype vad
  = (tr, Return r) ->
  exists it info,
    recognise path size lang device ctype vad = Return (it, info)
    /\ audio_path r = Path_ path
    /\ Path_exists (audio_path r) = true
    /\ model_size r = size
    /\ language_confidence r = info_language_probability info
    /\ duration r = info_duration info.
Proof.
  intros (it & info & parts & tl & tp & Hex & Hrec & _ & _ & _ & Hp & _ & _ & _
          & Hc & Hd & Hs)%transcribe_audio_to_ipa_Return.
  exists it, info. rewrite Hp. repeat split; assumption.
Qed.

(** X12: the text of a result has no white space at either end, and it is
    empty exactly when the result has no segment; then the ipa is empty
    too. *)
Theorem text_empty_iff_no_segment (tr : list call) (r : TranscriptionResult) :
  transcribe_audio_to_ipa path size lang ipa_lang device ctype vad
  = (tr, Return r) ->
  str_strip (text r) = text r
  /\ (text r = [] <-> segments r = [])
  /\ (segments r = [] -> ipa r = []).
Proof.
  intros Hrun.
  pose proof (segment_texts := Hrun).
  apply transcribe_audio_to_ipa_Return in segment_texts
    as (it & info & parts & tl & tp & _ & _ & Hloop & Hipa & _ & _ & Htext & _).
  apply for_segment_in_Return in Hloop as (new & Hsegs & Hbuilt & ->).
  simpl in Hsegs. subst new. simpl in Htext.
  assert (Htexts : List.map trimmed (List.filter spoken (yielded it))
                   = List.map sr_text (segments r)).
  { clear -Hbuilt. induction Hbuilt as [|raw sr raws srs Hb _ IH]; simpl;
      [reflexivity|].
    destruct Hb as (_ & _ & -> & _). f_equal. exact IH. }
  rewrite Htexts in Htext.
  assert (Hall : Forall (fun p => p <> [] /\ str_strip p = p)
                   (List.map sr_text (segments r))).
  { rewrite <- Htexts. apply Forall_forall. intros p Hp%list_elem_of_In.
    apply in_map_iff in Hp as (raw & <- & Hraw).
    apply filter_In in Hraw as [_ Hs]. apply trimmed_spoken, Hs. }
  rewrite (str_strip_join _ _ Hall) in Htext.
  assert (Hiff : text r = [] <-> segments r = []).
  { rewrite Htext, joined_parts_empty.
    - split; [apply map_eq_nil | intros ->; reflexivity].
    - eapply Forall_impl; [exact Hall|]. intros p Hp. apply Hp. }
  repeat apply conj.
  - rewrite Htext at 2. rewrite Htext. apply str_strip_join, Hall.
  - apply Hiff.
  - apply Hiff.
  - intros Hs. apply Hiff in Hs. rewrite Hs in Hipa. injection Hipa as _ <-.
    reflexivity.
Qed.

(** X13: a recording without speech: when the file exists, the recognizer
    delivers a complete iteration and no segment has text once trimmed, the
    run returns a result with no segment, empty text and empty ipa, and the
    phonemization engine is never called. *)
Theorem silent_recording_returns_empty (it : seg_iter)
    (info : TranscriptionInfo) :
  Path_exists (Path_ path) = true ->
  recognise path size lang device ctype vad = Return (it, info) ->
  raised it = None ->
  Forall (fun segment => spoken segment = false) (yielded it) ->
  exists tr r,
    transcribe_audio_to_ipa path size lang ipa_lang device ctype vad
    = (tr, Return r)
    /\ segments r = [] /\ text r = [] /\ ipa r = []
    /\ Forall (fun c => ~ is_phonemize_call c) tr.
Proof.
  intros Hex Hrec Hit Hblank.
  assert (Hnone : List.filter spoken (yielded it) = []).
  { clear -Hblank. induction Hblank as [|segment raws Hs _ IH]; simpl;
      [reflexivity|]. rewrite Hs. exact IH. }
  unfold transcribe_audio_to_ipa, recognise in *.
  fold (selected_compute_type device ctype). rewrite Hex. cbn [negb].
  destruct (WhisperModel _ _ _) as [model|e0]; [|discriminate].
  cbn [bind tell lift app]. rewrite Hrec. cbn [bind tell lift app].
  destruct (opt_bool ipa_lang); cbn [bind tell ret app];
    rewrite (for_segment_in_silent it _ [] [] Hit Hnone);
    cbn [bind ret app str_join str_strip str_lstrip str_rstrip rev str_bool];
    eexists _, _; (split; [reflexivity|]);
    cbn [segments text ipa]; repeat split;
    repeat constructor; simpl; tauto.
Qed.

(** X14: whatever comes of the run, once the file exists the first call
    loads the model with the precision given, or "int8" when none is given
    and the device is "cpu", or "auto" when none is given and the device is
    anything else; and once the model is loaded the next call starts the
    transcription on the string of the path with the language override as
    it was given, beam size 1, best of 1, temperature 0.0 and the given
    voice-activity flag. *)
Theorem recognizer_call_parameters :
  Path_exists (Path_ path) = true ->
  exists precision rest,
    fst (transcribe_audio_to_ipa path size lang ipa_lang device ctype vad)
    = Call_WhisperModel size device precision :: rest
    /\ (forall c, ctype = Some c -> precision = c)
    /\ (ctype = None -> device = py "cpu" -> precision = py "int8")
    /\ (ctype = None -> device <> py "cpu" -> precision = py "auto")
    /\ (forall model,
          WhisperModel size device precision = Return model ->
          exists rest',
            rest = Call_transcribe (Path_str (Path_ path)) lang 1 1 vad
                     float_0_0 :: rest').
Proof.
  intros Hex. unfold transcribe_audio_to_ipa. rewrite Hex. cbn [negb].
  set (precision := match ctype with Some c => c | None => _ end).
  rewrite bind_trace. cbn [tell fst snd app].
  eexists precision, _. split; [reflexivity|]. repeat apply conj.
  - intros c ->. reflexivity.
  - intros -> ->. reflexivity.
  - intros -> Hd. subst precision. cbn. rewrite bool_decide_eq_false_2; auto.
  - intros model Hm. rewrite bind_trace. cbn [lift fst snd app]. rewrite Hm.
    rewrite bind_trace. cbn [tell fst snd app]. eexists. reflexivity.
Qed.

(** X15: the ipa_language of a result is never the empty string. *)
Theorem ipa_language_never_empty (tr : list call) (r : TranscriptionResult) :
  transcribe_audio_to_ipa path size lang ipa_lang device ctype vad
  = (tr, Return r) ->
  ipa_language r <> [].
Proof.
  intros (it & info & parts & tl & tp & _ & _ & _ & _ & _ & _ & _ & _ & Hcode
          & _)%transcribe_audio_to_ipa_Return.
  rewrite Hcode. destruct ipa_lang as [[|c l]|]; cbn [opt_bool str_bool];
    try apply resolve_nonempty. discriminate.
Qed.
End MorePipelineTheorems.

(** ** The structured form and the command line *)

Lemma str_contains_app (c : N) (a b : str) :
  str_contains c (a ++ b) = str_contains c a || str_contains c b.
Proof. apply existsb_app. Qed.

Lemma str_contains_app_false (c : N) (a b : str) :
  str_contains c a = false -> str_contains c b = false ->
  str_contains c (a ++ b) = false.
Proof. intros Ha Hb. rewrite str_contains_app, Ha, Hb. reflexivity. Qed.

Lemma str_contains_join (c : N) (sep : str) (parts : list str) :
  str_contains c sep = false ->
  Forall (fun p => str_contains c p = false) parts ->
  str_contains c (str_join sep parts) = false.
Proof.
  intros Hsep. induction 1 as [|p ps Hp Hps IH]; [reflexivity|].
  destruct ps as [|q ps]; [exact Hp|].
  change (str_join sep (p :: q :: ps)) with (p ++ sep ++ str_join sep (q :: ps)).
  repeat apply str_contains_app_false; assumption.
Qed.

Lemma str_contains_str_or (c : N) (s d : str) :
  str_contains c s = false -> str_contains c d = false ->
  str_contains c (str_or (Some s) d) = false.
Proof. intros Hs Hd. simpl. destruct (str_bool s); assumption. Qed.

Section StructuredTheorems.
Context `{Platform}.

Lemma SegmentResult_to_dict_path_free (segs : list SegmentResult) :
  forallb path_free (List.map SegmentResult_to_dict segs) = true.
Proof.
  induction segs as [|seg segs IH]; [reflexivity|].
  cbn [List.map forallb]. rewrite IH, andb_true_r.
  unfold SegmentResult_to_dict. simpl.
  destruct (sr_avg_logprob seg), (sr_no_speech_prob seg); reflexivity.
Qed.

(** X16: the structured form of a result is the dictionary of the nine fields
    in declaration order, with the path as its string, absent numbers as
    None, and under "segments" the list, in order, of one dictionary per
    segment with its six fields; it holds no Path object at any depth, while
    [asdict] alone still holds one. *)
Theorem to_dict_is_serialisable (self : TranscriptionResult) :
  TranscriptionResult_to_dict self
  = PyDict
      [ (py "audio_path", PyStr (Path_str (audio_path self)));
        (py "text", PyStr (text self));
        (py "ipa", PyStr (ipa self));
        (py "segments",
         PyList
           (List.map
              (fun seg =>
                 PyDict
                   [ (py "start", PyFloat (sr_start seg));
                     (py "end", PyFloat (sr_end seg));
                     (py "text", PyStr (sr_text seg));
                     (py "ipa", PyStr (sr_ipa seg));
                     (py "avg_logprob",
                      match sr_avg_logprob seg with
                      | Some x => PyFloat x
                      | None => PyNone
                      end);
                     (py "no_speech_prob",
                      match sr_no_speech_prob seg with
                      | Some x => PyFloat x
                      | None => PyNone
                      end) ])
              (segments self)));
        (py "language", PyStr (language self));
        (py "language_confidence",
         match language_confidence self with
         | Some x => PyFloat x
         | None => PyNone
         end);
        (py "duration",
         match duration self with Some x => PyFloat x | None => PyNone end);
        (py "model_size", PyStr (model_size self));
        (py "ipa_language", PyStr (ipa_language self)) ]
  /\ path_free (TranscriptionResult_to_dict self) = true
  /\ path_free (PyDict (asdict self)) = false.
Proof.
  repeat apply conj.
  - reflexivity.
  - change (TranscriptionResult_to_dict self)
      with (PyDict
              [ (py "audio_path", PyStr (Path_str (audio_path self)));
                (py "text", PyStr (text self));
                (py "ipa", PyStr (ipa self));
                (py "segments",
                 PyList (List.map SegmentResult_to_dict (segments self)));
                (py "language", PyStr (language self));
                (py "language_confidence",
                 py_optional (language_confidence self));
                (py "duration", py_optional (duration self));
                (py "model_size", PyStr (model_size self));
                (py "ipa_language", PyStr (ipa_language self)) ]).
    cbn [path_free forallb snd]. rewrite SegmentResult_to_dict_path_free.
    destruct (language_confidence self), (duration self); reflexivity.
  - reflexivity.
Qed.
End StructuredTheorems.

Section CliTheorems.
Context `{Unicode} `{Platform} `{!Engines} `{!Console}.

(** X17: with no segment in the result, asking for the segments changes
    nothing in the summary: no heading and no blank line are added. *)
Theorem summary_without_segments (result : TranscriptionResult) (color : bool) :
  segments result = [] ->
  _format_summary result color true = _format_summary result color false
  /\ _format_summary result color true
     = str_join [newline] (summary_lines result color).
Proof. intros Hs. unfold _format_summary. rewrite Hs. split; reflexivity. Qed.

(** X18: without color the summary holds no escape character, provided the
    strings of the result and the formatted numbers hold none. *)
Theorem plain_summary_has_no_escape (result : TranscriptionResult)
    (with_segments : bool) :
  (forall spec x, str_contains ESC (format_float spec x) = false) ->
  str_contains ESC (Path_str (audio_path result)) = false ->
  str_contains ESC (model_size result) = false ->
  str_contains ESC (language result) = false ->
  str_contains ESC (ipa_language result) = false ->
  str_contains ESC (text result) = false ->
  str_contains ESC (ipa result) = false ->
  Forall (fun seg => str_contains ESC (sr_text seg) = false
                     /\ str_contains ESC (sr_ipa seg) = false)
    (segments result) ->
  str_contains ESC (_format_summary result false with_segments) = false.
Proof.
  intros Hfmt Hpath Hsize Hlang Hcode Htext Hipa Hsegs.
  assert (Hlines : Forall (fun p => str_contains ESC p = false)
                     (summary_lines result false)).
  { unfold summary_lines, style. cbn [negb].
    repeat constructor;
      repeat (apply str_contains_app_false || apply str_contains_str_or);
      try assumption; try reflexivity.
    - destruct (language_confidence result); [apply Hfmt | reflexivity].
    - destruct (duration result); [|reflexivity].
      repeat apply str_contains_app_false; try reflexivity. apply Hfmt. }
  unfold _format_summary. apply str_contains_join; [reflexivity|].
  destruct (with_segments && _); [|exact Hlines].
  repeat (apply Forall_app; split); try exact Hlines;
    try (repeat constructor; fail).
  apply Forall_forall. intros line Hl%list_elem_of_In.
  apply in_map_iff in Hl as (seg & <- & Hseg).
  rewrite Forall_forall in Hsegs.
  destruct (Hsegs seg) as [Ht Hi]; [apply list_elem_of_In, Hseg|].
  unfold segment_line, style. cbn [negb].
  repeat apply str_contains_app_false; try assumption; try reflexivity;
    apply Hfmt.
Qed.

(** X19: when the pipeline raises, the command line raises the same
    exception and has done nothing but the calls of the pipeline: no file
    is written and nothing is printed. *)
Theorem run_cli_failure_writes_nothing (argv : option (list str))
    (args : Namespace) (e : exn) :
  parse_args argv = Return args ->
  snd (transcribe_audio_to_ipa (inl (args_audio args)) (args_model args)
         (args_language args) (args_ipa_language args) (args_device args)
         (args_compute_type args) (negb (args_disable_vad args)))
  = Raise e ->
  snd (run_cli argv) = Raise e
  /\ Forall is_pipeline_event (fst (run_cli argv)).
Proof.
  intros Hargs Hrun. unfold run_cli. rewrite Hargs.
  destruct (transcribe_audio_to_ipa _ _ _ _ _ _ _) as [t [r|e']];
    simpl in Hrun; [discriminate|]. injection Hrun as ->.
  split; [reflexivity|]. simpl. apply Forall_forall.
  intros ev Hev%list_elem_of_In. apply in_map_iff in Hev as (c & <- & _).
  exact I.
Qed.

(** X20: the command line returns only the code 0, and only after a run of
    the pipeline that returned: its events are then the calls of that run,
    the write of the JSON text with indent 2 as UTF-8 if an output path was
    given, and last the print of the summary, with color unless --no-color
    and voice-activity filtering unless --disable-vad. *)
Theorem run_cli_returns_zero_after_printing (argv : option (list str))
    (code : Z) :
  snd (run_cli argv) = Return code ->
  code = 0%Z
  /\ exists args t result,
      parse_args argv = Return args
      /\ transcribe_audio_to_ipa (inl (args_audio args)) (args_model args)
           (args_language args) (args_ipa_language args) (args_device args)
           (args_compute_type args) (negb (args_disable_vad args))
         = (t, Return result)
      /\ fst (run_cli argv)
         = List.map Ev_pipeline t
           ++ match args_output args with
              | Some output =>
                  [Ev_write_text output (to_json result 2) (py "utf-8")]
              | None => []
              end
           ++ [Ev_print (_format_summary result (negb (args_no_color args))
                           (args_segments args))].
Proof.
  unfold run_cli. destruct (parse_args argv) as [args|e]; [|discriminate].
  destruct (transcribe_audio_to_ipa _ _ _ _ _ _ _) as [t [result|e]] eqn:Hrun;
    [|discriminate].
  destruct (args_output args) as [output|] eqn:Hout.
  - destruct (Path_write_text _ _ _); [|discriminate].
    cbn [fst snd]. destruct (py_print _); [|discriminate].
    intros [= <-]. split; [reflexivity|]. exists args, t, result.
    rewrite Hout. repeat split; try reflexivity. exact Hrun.
  - cbn [fst snd]. destruct (py_print _); [|discriminate].
    intros [= <-]. split; [reflexivity|]. exists args, t, result.
    rewrite Hout. repeat split; try reflexivity. exact Hrun.
Qed.

(** X21: once the arguments are parsed, whenever the command line raises,
    either no summary was printed, or the summary is the last event and the
    exception is the one its print raised; in particular a write of the
    output file that raises ends the command line with that exception
    after the calls of the pipeline and the write, before any print. *)
Theorem run_cli_prints_only_on_success (argv : option (list str))
    (args : Namespace) (e : exn) :
  parse_args argv = Return args ->
  snd (run_cli argv) = Raise e ->
  (Forall (fun ev => ~ is_print_event ev) (fst (run_cli argv))
   \/ exists events summary,
        fst (run_cli argv) = events ++ [Ev_print summary]
        /\ Forall (fun ev => ~ is_print_event ev) events
        /\ py_print summary = Raise e)
  /\ (forall t result output,
        transcribe_audio_to_ipa (inl (args_audio args)) (args_model args)
          (args_language args) (args_ipa_language args) (args_device args)
          (args_compute_type args) (negb (args_disable_vad args))
        = (t, Return result) ->
        args_output args = Some output ->
        Path_write_text output (to_json result 2) (py "utf-8") = Raise e ->
        fst (run_cli argv)
        = List.map Ev_pipeline t
          ++ [Ev_write_text output (to_json result 2) (py "utf-8")]).
Proof.
  intros Hargs. unfold run_cli. rewrite Hargs.
  assert (Hp : forall t : list call,
             Forall (fun ev => ~ is_print_event ev) (List.map Ev_pipeline t)).
  { intros t. apply Forall_forall. intros ev Hev%list_elem_of_In.
    apply in_map_iff in Hev as (c & <- & _). simpl. tauto. }
  destruct (transcribe_audio_to_ipa _ _ _ _ _ _ _) as [t [result|e1]].
  - destruct (args_output args) as [output|].
    + destruct (Path_write_text output _ _) as [u|e2] eqn:Hw.
      * cbn [fst snd]. destruct (py_print _) as [u'|e3] eqn:Hpr; [discriminate|].
        intros [= ->]. split.
        -- right. eexists (_ ++ [_]), _. rewrite <- app_assoc.
           split; [reflexivity|]. split; [|exact Hpr].
           apply Forall_app. split; [apply Hp|]. repeat constructor. simpl. tauto.
        -- intros t' r' o' [= <- <-] [= <-] Hw'. congruence.
      * cbn [fst snd]. intros [= ->]. split.
        -- left. apply Forall_app. split; [apply Hp|].
           repeat constructor. simpl. tauto.
        -- intros t' r' o' [= <- <-] [= <-] _. reflexivity.
    + cbn [fst snd]. destruct (py_print _) as [u'|e3] eqn:Hpr; [discriminate|].
      intros [= ->]. split.
      * right. eexists _, _. rewrite app_nil_l.
        split; [reflexivity|]. split; [apply Hp | exact Hpr].
      * intros t' r' o' _ [=].
  - cbn [fst snd]. intros [= ->]. split; [left; apply Hp|].
    intros t' r' o' [=].
Qed.

(** X22: on an audio argument that names no file, the command line raises
    FileNotFoundError with the path in the message and no event at all: no
    model is loaded, no file written, nothing printed. *)
Theorem run_cli_missing_audio (argv : option (list str)) (args : Namespace) :
  parse_args argv = Return args ->
  Path_exists (args_audio args) = false ->
  run_cli argv
  = ([], Raise (Exception FileNotFoundError
                  (py "Audio file not found: " ++ Path_str (args_audio args))
                  None)).
Proof.
  intros Hargs Hex. unfold run_cli, transcribe_audio_to_ipa. rewrite Hargs.
  cbn [Path_]. rewrite Hex. reflexivity.
Qed.
End CliTheorems.

(** ** The further properties on concrete runs *)

Lemma normalise_idempotent_witness :
  forallb is_ascii (py " EN_us ") = true
  /\ @_normalise_lang_code ascii_unicode
       (@_normalise_lang_code ascii_unicode (Some (py " EN_us ")))
     = @_normalise_lang_code ascii_unicode (Some (py " EN_us ")).
Proof.
  split; [reflexivity|].
  apply (@normalise_idempotent ascii_unicode (Some (py " EN_us "))).
  reflexivity.
Defined.

Lemma resolve_through_normal_form_witness :
  forallb is_ascii (py " PT_BR ") = true
  /\ @_resolve_espeak_language ascii_unicode (Some (py " PT_BR "))
     = @_resolve_espeak_language ascii_unicode
         (@_normalise_lang_code ascii_unicode (Some (py " PT_BR "))).
Proof.
  split; [reflexivity|].
  apply (@resolve_through_normal_form ascii_unicode). reflexivity.
Defined.

Lemma resolve_gives_normal_form_witness :
  forallb is_ascii (py "XX_yy") = true
  /\ @_normalise_lang_code ascii_unicode
       (Some (@_resolve_espeak_language ascii_unicode (Some (py "XX_yy"))))
     = Some (@_resolve_espeak_language ascii_unicode (Some (py "XX_yy"))).
Proof.
  split; [reflexivity|].
  apply (@resolve_gives_normal_form ascii_unicode (Some (py "XX_yy"))).
  reflexivity.
Defined.

Lemma other_engine_failure_propagates_witness :
  @_phonemize_text demo_platform (demo_engines demo_hello value_error)
    (py "Hello") (py "en-us")
  = ([Call_phonemize (py "Hello") (py "en-us") (py "espeak") true true true
        _PUNCTUATION],
     Raise (Exception (Exception_other (py "ValueError")) (py "bad text") None)).
Proof.
  apply (@other_engine_failure_propagates demo_platform
           (demo_engines demo_hello value_error)).
  - vm_compute. discriminate.
  - reflexivity.
  - reflexivity.
Defined.

Lemma recognizer_failure_propagates_witness :
  snd (demo_run broken_engines "audio.wav" None None) = Raise model_missing
  /\ Forall is_recognizer_call
       (fst (demo_run broken_engines "audio.wav" None None)).
Proof.
  apply (@recognizer_failure_propagates ascii_unicode demo_platform
           broken_engines); reflexivity.
Defined.

Lemma iteration_failure_propagates_witness :
  @raised demo_platform (fst demo_interrupted) = Some decode_failed
  /\ snd (demo_run (demo_engines demo_interrupted slashes) "audio.wav" None None)
     = Raise decode_failed.
Proof.
  split; [reflexivity|].
  apply (@iteration_failure_propagates ascii_unicode demo_platform
           (demo_engines demo_interrupted slashes) _ _ _ _ _ _ _
           (fst demo_interrupted) (snd demo_interrupted));
    try reflexivity.
  intros text. eexists. reflexivity.
Defined.

Lemma engine_failure_aborts_run_witness :
  exists e',
    snd (demo_run (demo_engines demo_hello no_espeak) "audio.wav" None None)
    = Raise e'.
Proof.
  apply (@engine_failure_aborts_run ascii_unicode demo_platform
           (demo_engines demo_hello no_espeak) _ _ _ _ _ _ _
           (fst demo_hello) (snd demo_hello)
           (demo_segment (0, 10)%Z (12, 10)%Z "Hello")
           (Exception RuntimeError (py "espeak not installed on your system")
              None)).
  - reflexivity.
  - left. reflexivity.
  - reflexivity.
  - reflexivity.
Defined.

Lemma returned_run_calls_witness :
  exists tr r,
    demo_run (demo_engines demo_hi_there slashes) "audio.wav" None None
    = (tr, Return r)
    /\ tr = [ @Call_WhisperModel demo_platform (py "small") (py "cpu")
                (py "int8");
              @Call_transcribe demo_platform (py "audio.wav") None 1 1 true
                (0, 10)%Z;
              Call_resolve (Some (py "en"));
              phonemize_call (py "Hi") (py "en-us");
              phonemize_call (py "there") (py "en-us");
              phonemize_call (py "Hi there") (py "en-us") ].
Proof.
  destruct (demo_run (demo_engines demo_hi_there slashes) "audio.wav" None None)
    as [tr [r|e]] eqn:Hrun; [|vm_compute in Hrun; discriminate Hrun].
  exists tr, r. split; [reflexivity|].
  pose proof (returned_run_calls _ _ _ _ _ _ _ tr r Hrun) as Htr.
  vm_compute in Hrun. injection Hrun as _ <-. exact Htr.
Defined.

Lemma segment_ipa_is_engine_value_witness :
  exists tr r,
    demo_run (demo_engines demo_hi_there slashes) "audio.wav" None None
    = (tr, Return r)
    /\ List.map sr_ipa (segments r) = [py "/Hi/"; py "/there/"]
    /\ Forall (fun sr => slashes (sr_text sr) (py "en-us") = Return (sr_ipa sr))
         (segments r).
Proof.
  destruct (demo_run (demo_engines demo_hi_there slashes) "audio.wav" None None)
    as [tr [r|e]] eqn:Hrun; [|vm_compute in Hrun; discriminate Hrun].
  exists tr, r. split; [reflexivity|].
  pose proof (segment_ipa_is_engine_value _ _ _ _ _ _ _ tr r Hrun) as Hall.
  vm_compute in Hrun. injection Hrun as _ <-.
  split; [reflexivity|].
  eapply Forall_impl; [exact Hall|]. intros sr (_ & _ & Hv). exact Hv.
Defined.

Lemma result_metadata_witness :
  exists tr r,
    demo_run (demo_engines demo_hello slashes) "audio.wav" None None
    = (tr, Return r)
    /\ audio_path r = py "audio.wav" /\ model_size r = py "small"
    /\ language_confidence r = Some (95, 100)%Z
    /\ duration r = Some (20, 10)%Z.
Proof.
  destruct (demo_run (demo_engines demo_hello slashes) "audio.wav" None None)
    as [tr [r|e]] eqn:Hrun; [|vm_compute in Hrun; discriminate Hrun].
  exists tr, r. split; [reflexivity|].
  destruct (result_metadata _ _ _ _ _ _ _ tr r Hrun)
    as (it & info & Hrec & Hp & _ & Hs & Hc & Hd).
  injection Hrec as _ <-. repeat split; assumption.
Defined.

Lemma text_empty_iff_no_segment_witness :
  exists tr r,
    demo_run (demo_engines demo_silent no_espeak) "audio.wav" None None
    = (tr, Return r)
    /\ segments r = [] /\ text r = [] /\ ipa r = [].
Proof.
  destruct (demo_run (demo_engines demo_silent no_espeak) "audio.wav" None None)
    as [tr [r|e]] eqn:Hrun; [|vm_compute in Hrun; discriminate Hrun].
  exists tr, r. split; [reflexivity|].
  destruct (text_empty_iff_no_segment _ _ _ _ _ _ _ tr r Hrun)
    as (_ & Hiff & Hipa).
  assert (Hs : segments r = [])
    by (vm_compute in Hrun; injection Hrun as _ <-; reflexivity).
  split; [exact Hs|]. split; [apply Hiff, Hs | apply Hipa, Hs].
Defined.

Lemma silent_recording_returns_empty_witness :
  exists tr r,
    demo_run (demo_engines demo_silent no_espeak) "audio.wav" None None
    = (tr, Return r)
    /\ segments r = [] /\ text r = [] /\ ipa r = []
    /\ Forall (fun c => ~ is_phonemize_call c) tr.
Proof.
  apply (@silent_recording_returns_empty ascii_unicode demo_platform
           (demo_engines demo_silent no_espeak) _ _ _ _ _ _ _
           (fst demo_silent) (snd demo_silent)); try reflexivity.
  repeat constructor.
Defined.

Lemma recognizer_call_parameters_witness :
  exists precision rest,
    fst (demo_run (demo_engines demo_hello slashes) "audio.wav"
           (Some []) None)
    = @Call_WhisperModel demo_platform (py "small") (py "cpu") precision
      :: rest
    /\ precision = py "int8"
    /\ exists rest',
        rest = @Call_transcribe demo_platform (py "audio.wav") (Some []) 1 1
                 true (0, 10)%Z :: rest'.
Proof.
  destruct (@recognizer_call_parameters ascii_unicode demo_platform
              (demo_engines demo_hello slashes) (inr (py "audio.wav"))
              (py "small") (Some []) None (py "cpu") None true eq_refl)
    as (precision & rest & Htr & _ & Hcpu & _ & Hnext).
  exists precision, rest. split; [exact Htr|].
  assert (Hp : precision = py "int8") by (apply Hcpu; reflexivity).
  split; [exact Hp|]. apply (Hnext tt). reflexivity.
Defined.

Lemma ipa_language_never_empty_witness :
  exists tr r,
    demo_run (demo_engines demo_hello slashes) "audio.wav" (Some [])
      (Some [])
    = (tr, Return r)
    /\ ipa_language r <> [].
Proof.
  destruct (demo_run (demo_engines demo_hello slashes) "audio.wav" (Some [])
              (Some [])) as [tr [r|e]] eqn:Hrun;
    [|vm_compute in Hrun; discriminate Hrun].
  exists tr, r. split; [reflexivity|].
  exact (ipa_language_never_empty _ _ _ _ _ _ _ tr r Hrun).
Defined.

Lemma summary_without_segments_witness :
  @segments demo_platform demo_empty_result = []
  /\ @_format_summary demo_platform (demo_console "audio.wav")
       demo_empty_result true true
     = @_format_summary demo_platform (demo_console "audio.wav")
         demo_empty_result true false.
Proof.
  split; [reflexivity|].
  apply (@summary_without_segments demo_platform (demo_console "audio.wav")).
  reflexivity.
Defined.

Lemma plain_summary_has_no_escape_witness :
  str_contains ESC
    (@_format_summary demo_platform (demo_console "audio.wav")
       demo_empty_result false true) = false.
Proof.
  apply (@plain_summary_has_no_escape demo_platform
           (demo_console "audio.wav") demo_empty_result true);
    try reflexivity.
  constructor.
Defined.

Lemma run_cli_failure_writes_nothing_witness :
  snd (@run_cli ascii_unicode demo_platform
         (demo_engines demo_hello no_espeak) (demo_console "audio.wav") None)
  = Raise (Exception RuntimeError
             (py "Failed to phonemize text. Ensure espeak-ng is installed and the language 'en-us' is supported.")
             (Some (Exception RuntimeError
                      (py "espeak not installed on your system") None)))
  /\ Forall is_pipeline_event
       (fst (@run_cli ascii_unicode demo_platform
               (demo_engines demo_hello no_espeak)
               (demo_console "audio.wav") None)).
Proof.
  apply (@run_cli_failure_writes_nothing ascii_unicode demo_platform
           (demo_engines demo_hello no_espeak) (demo_console "audio.wav")
           None (demo_args "audio.wav")); reflexivity.
Defined.

Lemma run_cli_returns_zero_after_printing_witness :
  snd (@run_cli ascii_unicode demo_platform (demo_engines demo_hello slashes)
         (demo_console "audio.wav") None) = Return 0%Z
  /\ exists events summary,
      fst (@run_cli ascii_unicode demo_platform
             (demo_engines demo_hello slashes) (demo_console "audio.wav") None)
      = events ++ [@Ev_write_text demo_platform (py "out.json") (py "{}")
                     (py "utf-8");
                   Ev_print summary].
Proof.
  split; [reflexivity|].
  destruct (@run_cli_returns_zero_after_printing ascii_unicode demo_platform
              (demo_engines demo_hello slashes) (demo_console "audio.wav")
              None 0%Z eq_refl) as (_ & args & t & result & Hargs & _ & Htr).
  injection Hargs as <-. rewrite Htr. eexists _, _. reflexivity.
Defined.

Lemma run_cli_prints_only_on_success_witness :
  snd (@run_cli ascii_unicode demo_platform (demo_engines demo_hello slashes)
         (readonly_console "audio.wav") None) = Raise permission_denied
  /\ Forall (fun ev => ~ is_print_event ev)
       (fst (@run_cli ascii_unicode demo_platform
               (demo_engines demo_hello slashes)
               (readonly_console "audio.wav") None))
  /\ exists t,
      fst (@run_cli ascii_unicode demo_platform
             (demo_engines demo_hello slashes)
             (readonly_console "audio.wav") None)
      = List.map Ev_pipeline t
        ++ [@Ev_write_text demo_platform (py "out.json") (py "{}")
              (py "utf-8")].
Proof.
  split; [reflexivity|].
  destruct (@run_cli_prints_only_on_success ascii_unicode demo_platform
              (demo_engines demo_hello slashes) (readonly_console "audio.wav")
              None (demo_args "audio.wav") permission_denied eq_refl eq_refl)
    as [Hprint Hwrite].
  split.
  - destruct Hprint as [Hnone|(events & summary & _ & _ & Hpr)];
      [exact Hnone | discriminate Hpr].
  - destruct (demo_run (demo_engines demo_hello slashes) "audio.wav" None None)
      as [t [result|e]] eqn:Hrun; [|vm_compute in Hrun; discriminate Hrun].
    exists t. apply (Hwrite t result (py "out.json") Hrun eq_refl eq_refl).
Defined.

Lemma run_cli_missing_audio_witness :
  @run_cli ascii_unicode demo_platform (demo_engines demo_hello slashes)
    (demo_console "missing.wav") None
  = ([], Raise (Exception FileNotFoundError
                  (py "Audio file not found: missing.wav") None)).
Proof.
  apply (@run_cli_missing_audio ascii_unicode demo_platform
           (demo_engines demo_hello slashes) (demo_console "missing.wav")
           None (demo_args "missing.wav")); reflexivity.
Defined.

(** X23: the run returns a result whenever the file exists, the model loads
    and the transcription starts, the segment iteration ends without
    raising, and the engine gives a value for every text. *)
Theorem run_returns_when_nothing_fails `{Unicode} `{Platform} `{!Engines}
    (path : Path + str) (size : str) (lang ipa_lang : option str)
    (device : str) (ctype : option str) (vad : bool) (it : seg_iter)
    (info : TranscriptionInfo) :
  Path_exists (Path_ path) = true ->
  recognise path size lang device ctype vad = Return (it, info) ->
  raised it = None ->
  (forall text code, exists s, engine text code = Return s) ->
  exists tr r,
    transcribe_audio_to_ipa path size lang ipa_lang device ctype vad
    = (tr, Return r).
Proof.
  intros Hex Hrec Hit Hg.
  apply (transcribe_audio_to_ipa_returns path size lang ipa_lang device ctype
           vad it info Hex Hrec); [|exact Hg].
  clear -Hit. induction it as [|segment rest IH|e]; simpl in *;
    [reflexivity | apply IH, Hit | discriminate].
Qed.

Lemma run_returns_when_nothing_fails_witness :
  exists tr r,
    demo_run (demo_engines demo_hi_there slashes) "audio.wav" None None
    = (tr, Return r).
Proof.
  apply (@run_returns_when_nothing_fails ascii_unicode demo_platform
           (demo_engines demo_hi_there slashes) _ _ _ _ _ _ _
           (fst demo_hi_there) (snd demo_hi_there)); try reflexivity.
  intros text code. eexists. reflexivity.
Defined.

(** ** The ipa_language override *)

Section OverrideTheorem.
Context `{Unicode} `{Platform} `{!Engines}.
Variables (path : Path + str) (size : str) (lang : option str)
  (device : str) (ctype : option str) (vad : bool).

Lemma raised_None_completes (it : seg_iter) :
  raised it = None -> completes it = true.
Proof.
  induction it as [|segment rest IH|e]; simpl;
    [reflexivity | exact IH | discriminate].
Qed.

(** The run returns when the engine gives a value for every text in the one
    code the run phonemizes with. *)
Lemma transcribe_audio_to_ipa_returns_at (ipa_code : option str)
    (it : seg_iter) (info : TranscriptionInfo) :
  Path_exists (Path_ path) = true ->
  recognise path size lang device ctype vad = Return (it, info) ->
  raised it = None ->
  (forall text, exists v,
      engine text (selected_ipa_code lang ipa_code info) = Return v) ->
  exists tr r,
    transcribe_audio_to_ipa path size lang ipa_code device ctype vad
    = (tr, Return r).
Proof.
  intros Hex Hrec Hit%raised_None_completes Hg.
  unfold transcribe_audio_to_ipa, recognise in *.
  fold (selected_compute_type device ctype). rewrite Hex. cbn [negb].
  destruct (WhisperModel _ _ _) as [model|e0]; [|discriminate].
  cbn [bind tell lift app]. rewrite Hrec. cbn [bind tell lift app].
  unfold selected_ipa_code, engine in Hg.
  set (rl := str_or lang (str_or (info_language info) [])) in *.
  set (code := if opt_bool ipa_code then default [] ipa_code
               else _resolve_espeak_language (Some rl)) in *.
  set (codeM := if opt_bool ipa_code then _ else _).
  assert (Hcode : exists t, codeM = (t, Return code)).
  { subst codeM code. destruct (opt_bool ipa_code); eexists; reflexivity. }
  destruct Hcode as (t & ->). cbn [bind].
  destruct (for_segment_in_returns it code [] [] Hit Hg)
    as (tl & [segs parts] & ->).
  cbn [bind]. set (full_text := str_strip (str_join (py " ") parts)).
  destruct (str_bool full_text) eqn:Hf.
  - rewrite _phonemize_text_spoken.
    + destruct (Hg full_text) as [s ->]. cbn [bind ret].
      eexists _, _. reflexivity.
    + subst full_text. rewrite str_strip_idem. apply str_bool_true, Hf.
  - cbn [bind ret]. eexists _, _. reflexivity.
Qed.

(** C10: with a non-empty ipa_language override the override is what the
    engine is applied to, as it was given: a result records it, the ipa of
    every segment and of the full text is the value the engine gave for
    that text in the override, the run returns as soon as the engine gives
    values in the override, every call recorded for the engine carries the
    override, no call goes to the resolver, and the run is the same
    whatever the case mapping the resolver would use. *)
Theorem ipa_language_override_verbatim (c : str) (tr : list call)
    (o : outcome TranscriptionResult) :
  c <> [] ->
  transcribe_audio_to_ipa path size lang (Some c) device ctype vad = (tr, o) ->
  (forall r, o = Return r ->
     ipa_language r = c
     /\ Forall (fun sr => engine (sr_text sr) c = Return (sr_ipa sr))
          (segments r)
     /\ (text r <> [] -> engine (text r) c = Return (ipa r)))
  /\ Forall (resolver_free_call c) tr
  /\ (forall it info,
        Path_exists (Path_ path) = true ->
        recognise path size lang device ctype vad = Return (it, info) ->
        raised it = None ->
        (forall text, exists v, engine text c = Return v) ->
        exists r, o = Return r)
  /\ (forall U' : Unicode,
        @transcribe_audio_to_ipa U' _ _ path size lang (Some c) device ctype
          vad = (tr, o)).
Proof.
  intros Hc Hrun. pose proof Hc as Hb%str_bool_true. repeat apply conj.
  - intros r ->.
    apply transcribe_audio_to_ipa_Return in Hrun
      as (it & info & parts & tl & tp & _ & _ & Hloop & Hipa & _ & _ & Htext
          & _ & Hcode & _).
    cbn [opt_bool] in Hcode. rewrite Hb in Hcode. cbn in Hcode.
    rewrite Hcode in *. repeat apply conj.
    + reflexivity.
    + apply for_segment_in_Return in Hloop as (new & Hsegs & Hbuilt & _).
      simpl in Hsegs. subst new.
      eapply Forall_impl;
        [exact (built_from_engine c _ _ (filter_spoken_Forall _) Hbuilt)|].
      intros sr (_ & _ & Hv). exact Hv.
    + intros Hne. pose proof Hne as Ht%str_bool_true. rewrite Ht in Hipa.
      apply _phonemize_text_Return in Hipa as [_ Hv]; [exact Hv|].
      rewrite Htext, str_strip_idem, <- Htext. exact Hne.
  - pose proof (transcribe_audio_to_ipa_override_trace path size lang c
                  device ctype vad Hc) as Htr.
    rewrite Hrun in Htr. exact Htr.
  - intros it info Hex Hrec Hit Hg.
    destruct (fun Hg' => transcribe_audio_to_ipa_returns_at (Some c) it info
                           Hex Hrec Hit Hg')
      as (tr' & r & Hr).
    + unfold selected_ipa_code. cbn [opt_bool]. rewrite Hb. exact Hg.
    + exists r. congruence.
  - intros U'. rewrite <- Hrun. unfold transcribe_audio_to_ipa.
    cbn [opt_bool]. rewrite Hb. reflexivity.
Qed.
End OverrideTheorem.

Lemma ipa_language_override_verbatim_witness :
  py "EN_US" <> []
  /\ exists tr r,
      demo_run (demo_engines demo_hello tagged) "audio.wav" None
        (Some (py "EN_US")) = (tr, Return r)
      /\ ipa_language r = py "EN_US"
      /\ Forall (fun sr => tagged (sr_text sr) (py "EN_US") = Return (sr_ipa sr))
           (segments r)
      /\ List.map sr_ipa (segments r) = [py "EN_US:Hello"]
      /\ tagged (py "Hello") (py "EN_US") = Return (ipa r)
      /\ Forall (resolver_free_call (py "EN_US")) tr
      /\ In (Call_phonemize (py "Hello") (py "EN_US") (py "espeak")
               true true true _PUNCTUATION) tr.
Proof.
  split; [discriminate|].
  destruct (demo_run (demo_engines demo_hello tagged) "audio.wav" None
              (Some (py "EN_US"))) as [tr [r|e]] eqn:Hrun;
    [|vm_compute in Hrun; discriminate Hrun].
  exists tr, r. split; [reflexivity|].
  assert (Hne : py "EN_US" <> []) by discriminate.
  destruct (ipa_language_override_verbatim _ _ _ _ _ _ (py "EN_US") tr
              (Return r) Hne Hrun) as (Hr & Htr & _ & _).
  destruct (Hr r eq_refl) as (Hcode & Hsegs & Hfull).
  vm_compute in Hrun. injection Hrun as <- <-.
  repeat apply conj.
  - exact Hcode.
  - exact Hsegs.
  - reflexivity.
  - apply Hfull. discriminate.
  - exact Htr.
  - right. right. left. reflexivity.
Defined.
